(** * db-dump: the table formatter of [Tools/quippy/scripts/db-dump.py]

    A shallow embedding of the script's pure core: the truncation helper
    [cut], the column-specification resolver of [Formatter.__init__], the
    accessors [size], [fmax], [fixed], [pbc] and [keyvals], the table
    renderer [Formatter.format] and the driver [run].

    Conventions of the embedding.
    - Python exceptions are values of [exn]; code that can raise returns a
      [result].
    - Python 2 [str] values are byte strings: [string], with [len] the number
      of bytes.
    - Python [int] is [Z].  A finite Python [float] is idealised as the
      exact number it approximates ([pyfloat]): a rational, or the square
      root of a rational; rounding error is outside the model.  NaN and the
      two infinities are values of their own.
    - Attributes of a database row that may be missing are [option] fields:
      reading a missing one raises [AttributeError]. *)

From Stdlib Require Import String Ascii ZArith QArith Qabs Lia List Sorted.
From stdpp Require Import list strings.
Import ListNotations.

Local Open Scope Z_scope.

(** ** Exceptions and results *)

Inductive exn : Set :=
| AttributeError
| TypeError
| ValueError
| IndexError
| KeyError
| UnboundLocalError.

Inductive result (A : Type) : Type :=
| Ok (a : A)
| Raise (e : exn).

Arguments Ok {A} a.
Arguments Raise {A} e.

Definition bind {A B : Type} (r : result A) (k : A -> result B) : result B :=
  match r with
  | Ok a => k a
  | Raise e => Raise e
  end.

Notation "'let*' x ':=' r 'in' k" := (bind r (fun x => k))
  (at level 10, x pattern, r at level 100, k at level 200).

(** [getattr o]: read an attribute that may be missing. *)
Definition getattr {A : Type} (o : option A) : result A :=
  match o with
  | Some a => Ok a
  | None => Raise AttributeError
  end.

(** ** Python strings *)

Module Py.

(** [len(s)] *)
Definition len (s : string) : Z := Z.of_nat (String.length s).

Fixpoint take (n : nat) (s : string) : string :=
  match n, s with
  | S n', String c s' => String c (take n' s')
  | _, _ => EmptyString
  end.

Fixpoint drop (n : nat) (s : string) : string :=
  match n, s with
  | S n', String _ s' => drop n' s'
  | _, _ => s
  end.

(** [s[:k]]: a negative bound counts from the end and is clamped at 0. *)
Definition slice_to (s : string) (k : Z) : string :=
  if k <? 0 then take (Z.to_nat (len s + k)) s else take (Z.to_nat k) s.

(** [s[0]] *)
Definition first_char (s : string) : result ascii :=
  match s with
  | String c _ => Ok c
  | EmptyString => Raise IndexError
  end.

(** [s.lstrip(c)] for a one-character argument. *)
Fixpoint lstrip (c : ascii) (s : string) : string :=
  match s with
  | String a s' => if Ascii.eqb a c then lstrip c s' else s
  | EmptyString => EmptyString
  end.

(** [s.split(sep)] for a one-character separator: never the empty list. *)
Fixpoint split (sep : ascii) (s : string) : list string :=
  match s with
  | EmptyString => [EmptyString]
  | String c s' =>
      if Ascii.eqb c sep then EmptyString :: split sep s'
      else match split sep s' with
           | t :: ts => String c t :: ts
           | [] => [String c EmptyString]
           end
  end.

(** [sep.join(l)] *)
Definition join (sep : string) (l : list string) : string := String.concat sep l.

(** The last decimal digit of [n]. *)
Definition digit (n : Z) : ascii :=
  match n mod 10 with
  | 0 => "0" | 1 => "1" | 2 => "2" | 3 => "3" | 4 => "4"
  | 5 => "5" | 6 => "6" | 7 => "7" | 8 => "8" | _ => "9"
  end%char.

(** The decimal digits of [n >= 0] in front of [acc], most significant
    first; [fuel] bounds their number. *)
Fixpoint digits (fuel : nat) (n : Z) (acc : string) : string :=
  match fuel with
  | O => acc
  | S fuel' =>
      let acc' := String (digit n) acc in
      if n <? 10 then acc' else digits fuel' (n / 10) acc'
  end.

Definition decimal (n : Z) : string :=
  digits (S (Z.to_nat (Z.log2 n))) n EmptyString.

(** ['%d' % z] and [str(z)] *)
Definition fmt_d (z : Z) : string :=
  if z <? 0 then String "-" (decimal (- z)) else decimal z.

Definition spaces (n : nat) : string := String.concat "" (repeat " "%string n).

(** ['%*s' % (width, s)]: pad with blanks to [|width|] bytes, on the left
    for a positive width (right-justified), on the right for a negative one
    (left-justified); a string at least that long is printed whole. *)
Definition fmt_star_s (width : Z) (s : string) : string :=
  let fill := spaces (Z.to_nat (Z.abs width - len s)) in
  if width <? 0 then (s ++ fill)%string else (fill ++ s)%string.

(** [l.remove(x)]: drops the first occurrence, [ValueError] when absent. *)
Fixpoint list_remove (x : string) (l : list string) : result (list string) :=
  match l with
  | [] => Raise ValueError
  | y :: l' =>
      if String.eqb y x then Ok l'
      else let* l'' := list_remove x l' in Ok (y :: l'')
  end.

(** [l.index(x)]: position of the first occurrence, [ValueError] when absent. *)
Fixpoint list_index (x : string) (l : list string) : result nat :=
  match l with
  | [] => Raise ValueError
  | y :: l' =>
      if String.eqb y x then Ok 0%nat
      else let* n := list_index x l' in Ok (S n)
  end.

End Py.

(** ** [cut] (lines 34-39) *)

Definition cut (txt : string) (length : option Z) : string :=
  match length with
  | None => txt
  | Some n =>
      if n =? 0 then txt
      else if Py.len txt <=? n then txt
      else (Py.slice_to txt (n - 3) ++ "...")%string
  end.

(** ** Column specification: [Formatter.__init__], lines 48-61 *)

Definition default_columns : list string :=
  ["id"; "age"; "user"; "formula"; "calc";
   "energy"; "fmax"; "pbc"; "size"; "keywords";
   "charge"; "mass"; "fixed"; "smax"; "magmom"; "cell"]%string.

(** The body of [for col in cols.split(',')], one token at a time. *)
Definition column_token (col : string) (columns : list string)
  : result (list string) :=
  let* c0 := Py.first_char col in
  if Ascii.eqb c0 "-" then Py.list_remove (Py.drop 1 col) columns
  else Ok (columns ++ [Py.lstrip "+" col]).

Fixpoint column_tokens (toks : list string) (columns : list string)
  : result (list string) :=
  match toks with
  | [] => Ok columns
  | col :: rest =>
      let* columns' := column_token col columns in
      column_tokens rest columns'
  end.

(** [self.columns] after line 61; [cols] is the [-c] option ([None] when
    the option is not given). *)
Definition init_columns (cols : option string) : result (list string) :=
  match cols with
  | None => Ok default_columns
  | Some EmptyString => Ok default_columns
  | Some (String c0 rest as cols) =>
      if Ascii.eqb c0 "+" then
        column_tokens (Py.split "," rest) default_columns
      else if negb (Ascii.eqb c0 "-") then
        column_tokens (Py.split "," cols) []
      else
        column_tokens (Py.split "," cols) default_columns
  end.

(** ** Numbers and values *)

(** A Python [float], idealised: [FQ q] is the rational [q], [FSqrt q] the
    square root of the (non-negative) rational [q]; [FNaN] is [nan] and
    [FInf b] is [inf], or [-inf] when [b] holds. *)
Inductive pyfloat : Set :=
| FQ (q : Q)
| FSqrt (q : Q)
| FNaN
| FInf (neg : bool).

(** What an accessor returns: an [int], a [float] or a [str]. *)
Inductive value : Set :=
| VInt (z : Z)
| VFloat (x : pyfloat)
| VStr (s : string).

Definition vec3 : Set := (Q * Q * Q)%type.
Definition mat3 : Set := (vec3 * vec3 * vec3)%type.

Module Np.

Local Open Scope Q_scope.

(** [(v**2).sum()] of one row *)
Definition sumsq (v : vec3) : Q :=
  let '(x, y, z) := v in x * x + y * y + z * z.

(** [np.linalg.norm(v)] *)
Definition norm (v : vec3) : pyfloat := FSqrt (sumsq v).

(** [np.cross(a, b)] *)
Definition cross (a b : vec3) : vec3 :=
  let '(a1, a2, a3) := a in
  let '(b1, b2, b3) := b in
  (a2 * b3 - a3 * b2, a3 * b1 - a1 * b3, a1 * b2 - a2 * b1).

(** [np.linalg.det(m)] *)
Definition det (m : mat3) : Q :=
  let '(r1, r2, r3) := m in
  let '(a, b, c) := r1 in
  let '(d, e, f) := r2 in
  let '(g, h, i) := r3 in
  a * (e * i - f * h) - b * (d * i - f * g) + c * (d * h - e * g).

Definition qmax (x y : Q) : Q := if Qle_bool x y then y else x.

(** [a.max()]: [ValueError] on an empty array. *)
Definition max (l : list Q) : result Q :=
  match l with
  | [] => Raise ValueError
  | x :: l' => Ok (fold_left qmax l' x)
  end.

(** [a[m]] for a boolean array [m]: the rows at which [m] is [True];
    [IndexError] when the lengths differ. *)
Definition bool_index {A : Type} (a : list A) (m : list bool) : result (list A) :=
  if (length a =? length m)%nat
  then Ok (map fst (List.filter (fun p => snd p) (combine a m)))
  else Raise IndexError.

(** [np.invert(m)] *)
Definition invert (m : list bool) : list bool := map negb m.

(** [m.sum()] of a boolean array, [sum(m)] of a list of booleans *)
Definition count_true (m : list bool) : Z :=
  Z.of_nat (length (List.filter (fun b => b) m)).

End Np.

(** ** Database rows *)

(** One entry of [d.constraints]: a dictionary that may hold a boolean
    ['mask'] or explicit ['indices']. *)
Record constraint : Set := {
  mask : option (list bool);
  indices : option (list Z)
}.

(** The attributes of a row that the modelled accessors read.  [None] is a
    missing attribute; [d_constraints] may be present with the value
    [None] ([Some None]).  A value of [key_value_pairs] is kept as its
    [str()] rendering. *)
Record Row : Set := {
  d_id : option Z;
  d_user : option string;
  d_energy : option pyfloat;
  d_forces : option (list vec3);
  d_cell : option mat3;
  d_pbc : option (bool * bool * bool);
  d_constraints : option (option (list constraint));
  d_key_value_pairs : option (list (string * string))
}.

Definition rows3 {A : Type} (t : A * A * A) : list A :=
  let '(a, b, c) := t in [a; b; c].

(** ** The options object and the accessors *)

Record Opts : Set := {
  o_count : bool;
  o_list_columns : bool;
  o_columns : option string;
  o_include_all : bool;
  o_sort : option string;
  o_uniq : bool;
  o_extract : option string;
  o_limit : Z;
  o_wiki_table : bool;
  o_cut : option Z
}.

(** A bound column function; it may read [self.opts], set by [format]. *)
Definition accessor : Set := Opts -> Row -> result value.

Module Formatter.

Definition id : accessor := fun _ d =>
  let* i := getattr (d_id d) in Ok (VInt i).

Definition user : accessor := fun _ d =>
  let* u := getattr (d_user d) in Ok (VStr u).

Definition energy : accessor := fun _ d =>
  let* e := getattr (d_energy d) in Ok (VFloat e).

(** [size] (lines 85-93) *)
Definition size : accessor := fun _ d =>
  let* pbc := getattr (d_pbc d) in
  let dims := Np.count_true (rows3 pbc) in
  if dims =? 0 then Ok (VStr "")
  else if dims =? 1 then
    let* cell := getattr (d_cell d) in
    let* rows := Np.bool_index (rows3 cell) (rows3 pbc) in
    match rows with
    | v :: _ => Ok (VFloat (Np.norm v))
    | [] => Raise IndexError
    end
  else if dims =? 2 then
    let* cell := getattr (d_cell d) in
    let* rows := Np.bool_index (rows3 cell) (rows3 pbc) in
    match rows with
    | [a; b] => Ok (VFloat (Np.norm (Np.cross a b)))
    | _ => Raise TypeError
    end
  else
    let* cell := getattr (d_cell d) in
    Ok (VFloat (FQ (Qabs (Np.det cell)))).

(** [len(c)] where [c] may be [None] *)
Definition len_constraints (c : option (list constraint)) : result Z :=
  match c with
  | None => Raise TypeError
  | Some cs => Ok (Z.of_nat (length cs))
  end.

(** [c[0]] *)
Definition first_constraint (c : option (list constraint)) : result constraint :=
  match c with
  | None => Raise TypeError
  | Some [] => Raise IndexError
  | Some (c0 :: _) => Ok c0
  end.

(** [(f**2).sum(axis=1).max()**0.5] *)
Definition max_norm (f : list vec3) : result value :=
  let* m := Np.max (map Np.sumsq f) in
  Ok (VFloat (FSqrt m)).

(** [fmax] (lines 108-119).  The local [f] is assigned on lines 111 and 113
    and again on line 116 or 118; only the last assignment is read. *)
Definition fmax : accessor := fun _ d =>
  let* c := getattr (d_constraints d) in
  let* f :=
    match c with
    | None => let* f := getattr (d_forces d) in Ok (Some f)
    | Some _ => Ok None
    end in
  let* n := len_constraints c in
  let* f :=
    if 1 <? n then let* f := getattr (d_forces d) in Ok (Some f)
    else Ok f in
  let* c := first_constraint c in
  let* f :=
    match mask c with
    | Some m =>
        let* forces := getattr (d_forces d) in
        Np.bool_index forces (Np.invert m)
    | None => getattr (d_forces d)
    end in
  max_norm f.

(** [fixed] (lines 139-148) *)
Definition fixed : accessor := fun _ d =>
  let* c := getattr (d_constraints d) in
  match c with
  | None => Ok (VStr "")
  | Some cs =>
      if 1 <? Z.of_nat (length cs) then Ok (VStr "?")
      else
        let* c := first_constraint c in
        match mask c with
        | Some m => Ok (VInt (Np.count_true m))
        | None =>
            match indices c with
            | Some ix => Ok (VInt (Z.of_nat (length ix)))
            | None => Raise KeyError
            end
        end
  end.

(** [keyval_factory] (lines 156-160) *)
Definition dict_get (key : string) (kv : list (string * string)) : option string :=
  match List.find (fun p => String.eqb (fst p) key) kv with
  | Some p => Some (snd p)
  | None => None
  end.

Definition keyval_factory (key : string) : accessor := fun _ d =>
  let* kv := getattr (d_key_value_pairs d) in
  Ok (VStr (match dict_get key kv with
            | Some v => v
            | None => "(none)"
            end)).

(** [pbc] (lines 101-103): the three flags through ['%d%d%d']. *)
Definition flag (b : bool) : string := Py.fmt_d (if b then 1 else 0).

Definition pbc : accessor := fun _ d =>
  let* (a, b, c) := getattr (d_pbc d) in
  Ok (VStr (flag a ++ flag b ++ flag c)).

(** [keyvals] (lines 124-126) *)
Definition keyvals : accessor := fun _ d =>
  let* kv := getattr (d_key_value_pairs d) in
  Ok (VStr (cut (Py.join ","
                   (map (fun p => (fst p ++ "=" ++ cut (snd p) (Some 8))%string)
                      kv))
              (Some 40))).

End Formatter.

(** ** Rendering of numbers *)

Module Fmt.

(** The integer nearest to [a / b] ([0 <= a], [0 < b]), ties to even. *)
Definition round_half_even (a b : Z) : Z :=
  let fl := a / b in
  let r2 := 2 * (a mod b) in
  if b <? r2 then fl + 1
  else if r2 <? b then fl
  else if Z.even fl then fl else fl + 1.

Definition finite (x : pyfloat) : bool :=
  match x with
  | FQ _ | FSqrt _ => true
  | FNaN | FInf _ => false
  end.

(** [|x| * 1000] for a finite [x], rounded to the nearest integer.  For
    [FSqrt q] the candidates are [n] and [n + 1] with
    [n = floor (sqrt (q * 10^6))]; [n + 1] is nearer exactly when
    [(2n+1)^2 < 4 * q * 10^6]. *)
Definition milli (x : pyfloat) : Z :=
  match x with
  | FQ q => round_half_even (Z.abs (Qnum q) * 1000) (Z.pos (Qden q))
  | FSqrt q =>
      let a := Qnum q * 1000000 in
      let b := Z.pos (Qden q) in
      let n := Z.sqrt (a / b) in
      let c := (2 * n + 1) * (2 * n + 1) in
      if c * b <? 4 * a then n + 1
      else if 4 * a <? c * b then n
      else if Z.even n then n else n + 1
  | FNaN | FInf _ => 0
  end.

Definition negative (x : pyfloat) : bool :=
  match x with
  | FQ q => Qnum q <? 0
  | FSqrt _ => false
  | FNaN => false
  | FInf neg => neg
  end.

(** ['%.3f' % x]: a sign, the integer part, a point and three digits for a
    finite [x]; ['nan'], ['inf'] or ['-inf'] otherwise. *)
Definition f3 (x : pyfloat) : string :=
  match x with
  | FNaN => "nan"
  | FInf neg => if neg then "-inf" else "inf"
  | _ =>
      let m := milli x in
      ((if negative x then "-" else "") ++ Py.fmt_d (m / 1000) ++ "."
       ++ String (Py.digit (m / 100)) (String (Py.digit (m / 10))
            (String (Py.digit m) EmptyString)))%string
  end.

End Fmt.

(** ** [Formatter.format] (lines 162-232) *)

(** An entry of a table row: a rendered cell, or the repeat count that
    deduplication appends (an [int], printed through [str]). *)
Inductive tcell : Set :=
| TStr (s : string)
| TCount (n : Z).

Definition str (c : tcell) : string :=
  match c with
  | TStr s => s
  | TCount n => Py.fmt_d n
  end.

Record Formatter : Set := {
  sort : option string;
  columns : list string;
  funcs : list accessor
}.

(** [l[i] = x] and [l[i]] *)
Definition set_item {A : Type} (l : list A) (i : nat) (x : A) : result (list A) :=
  if (i <? length l)%nat then Ok (<[i := x]> l) else Raise IndexError.

Definition get_item {A : Type} (l : list A) (i : nat) : result A :=
  match l !! i with
  | Some x => Ok x
  | None => Raise IndexError
  end.

(** [l[-1] = f(l[-1])] *)
Definition update_last (f : Z -> Z) (l : list Z) : result (list Z) :=
  match l with
  | [] => Raise IndexError
  | _ => Ok (removelast l ++ [f (List.last l 0)])
  end.

(** Lines 177-190: one cell.  The state is [(row, widths, signs)]. *)
Definition cell_step (opts : Opts) (dct : Row) (i : nat) (f : accessor)
    (st : list string * list Z * list Z)
  : result (list string * list Z * list Z) :=
  let '(row, widths, signs) := st in
  match f opts dct with
  | Raise AttributeError => Ok (row ++ [EmptyString], widths, signs)
  | Raise e => Raise e
  | Ok v =>
      let* (s, signs) :=
        match v with
        | VInt z => Ok (Py.fmt_d z, signs)
        | VFloat x => Ok (Fmt.f3 x, signs)
        | VStr s => let* signs := set_item signs i (-1) in Ok (s, signs)
        end in
      let* w := get_item widths i in
      let* widths :=
        if w <? Py.len s then set_item widths i (Py.len s) else Ok widths in
      Ok (row ++ [s], widths, signs)
  end.

(** Lines 176-190: [for i, f in enumerate(self.funcs)], from index [i]. *)
Fixpoint cell_loop (opts : Opts) (dct : Row) (fs : list accessor) (i : nat)
    (st : list string * list Z * list Z)
  : result (list string * list Z * list Z) :=
  match fs with
  | [] => Ok st
  | f :: fs' =>
      let* st := cell_step opts dct i f st in
      cell_loop opts dct fs' (S i) st
  end.

(** Lines 174-192: [for dct in dcts].  The state is
    [(table, widths, signs, ids)]. *)
Fixpoint row_loop (opts : Opts) (fs : list accessor) (dcts : list Row)
    (st : list (list string) * list Z * list Z * list Z)
  : result (list (list string) * list Z * list Z * list Z) :=
  match dcts with
  | [] => Ok st
  | dct :: dcts' =>
      let '(table, widths, signs, ids) := st in
      let* (row, widths, signs) := cell_loop opts dct fs 0 ([], widths, signs) in
      let* i := getattr (d_id dct) in
      row_loop opts fs dcts' (table ++ [row], widths, signs, ids ++ [i])
  end.

(** [table.sort(key=...)]: a stable sort on the byte-wise order of the keys. *)
Fixpoint insert_by_key (x : string * list string)
    (l : list (string * list string)) : list (string * list string) :=
  match l with
  | [] => [x]
  | y :: l' =>
      if String.leb (fst x) (fst y) then x :: l else y :: insert_by_key x l'
  end.

Definition stable_sort (l : list (string * list string))
  : list (string * list string) :=
  fold_right insert_by_key [] l.

Fixpoint sort_keys (n : nat) (rows : list (list string))
  : result (list (string * list string)) :=
  match rows with
  | [] => Ok []
  | row :: rows' =>
      let* k := get_item row n in
      let* ks := sort_keys n rows' in
      Ok ((k, row) :: ks)
  end.

(** Lines 194-198.  [self_columns] is [self.columns] at that point. *)
Definition sort_stage (self_columns : list string) (sort : option string)
    (table : list (list string)) : result (list (list string)) :=
  match sort with
  | None | Some EmptyString => Ok table
  | Some s =>
      match table with
      | [] => Raise IndexError
      | headline :: rows =>
          let* n := Py.list_index s self_columns in
          let* keyed := sort_keys n rows in
          Ok (headline :: map snd (stable_sort keyed))
      end
  end.

Definition count_width (count : Z) (w : Z) : Z := Z.max w (Py.len (Py.fmt_d count)).

Definition with_count (row : list string) (count : Z) : list tcell :=
  map TStr row ++ [TCount count].

(** Lines 204-214: the loop over the remaining rows and the final append. *)
Fixpoint uniq_loop (table : list (list string)) (first_row : list string)
    (count : Z) (uniq_table : list (list tcell)) (widths : list Z)
  : result (list (list tcell) * list Z) :=
  match table with
  | [] =>
      let* widths := update_last (count_width count) widths in
      Ok (uniq_table ++ [with_count first_row count], widths)
  | row :: table' =>
      if decide (row = first_row) then
        uniq_loop table' first_row (count + 1) uniq_table widths
      else
        let* widths := update_last (count_width count) widths in
        uniq_loop table' row 1 (uniq_table ++ [with_count first_row count]) widths
  end.

(** Lines 200-216 *)
Definition uniq_stage (table : list (list string)) (widths : list Z)
  : result (list (list tcell) * list Z) :=
  match table with
  | [] => Raise IndexError
  | header :: table =>
      match table with
      | [] => Raise IndexError
      | first_row :: table => uniq_loop table first_row 1 [map TStr header] widths
      end
  end.

(** Lines 218-219: [w and max(w, len(col))] *)
Definition final_width (w : Z) (col : string) : Z :=
  if w =? 0 then w else Z.max w (Py.len col).

Definition final_widths (widths : list Z) (columns : list string) : list Z :=
  map (fun p => final_width (fst p) (snd p)) (combine widths columns).

(** Lines 225-229: one output line. *)
Definition line (wiki_table : bool) (widths signs : list Z) (row : list tcell)
  : string :=
  let fields :=
    map (fun p => let '(w, (sign, s)) := p in Py.fmt_star_s (w * sign) (str s))
      (List.filter (fun p => 0 <? fst p) (combine widths (combine signs row))) in
  let line := Py.join "|" fields in
  if wiki_table then ("|" ++ line ++ "|")%string else line.

(** The state of [format] on reaching line 221. *)
Record layout : Set := {
  l_table : list (list tcell);
  l_widths : list Z;
  l_signs : list Z;
  l_ids : list Z
}.

(** [self.columns] once line 166 has run: [columns += ['repeat']] extends
    the list object that [self.columns] names. *)
Definition self_columns (self : Formatter) (opts : Opts) : list string :=
  if o_uniq opts then columns self ++ ["repeat"%string] else columns self.

(** The local [columns] after line 168. *)
Definition header (self : Formatter) (opts : Opts) : list string :=
  if o_wiki_table opts
  then map (fun col => ("*" ++ col ++ "*")%string) (self_columns self opts)
  else self_columns self opts.

(** Lines 163-219 *)
Definition format_layout (self : Formatter) (dcts : list Row) (opts : Opts)
  : result layout :=
  let columns := header self opts in
  let table := [columns] in
  let widths := map (fun _ => 0) columns in
  let signs := map (fun _ => 1) columns in
  let* (table, widths, signs, ids) :=
    row_loop opts (funcs self) dcts (table, widths, signs, []) in
  let* table := sort_stage (self_columns self opts) (sort self) table in
  let* (table, widths) :=
    if o_uniq opts then uniq_stage table widths
    else Ok (map (map TStr) table, widths) in
  let widths := final_widths widths columns in
  Ok {| l_table := table; l_widths := widths; l_signs := signs; l_ids := ids |}.

(** Lines 221-232: the lines written to [sys.stdout] (each followed by a
    newline) and the returned pair [(ids, columns)]. *)
Definition format (self : Formatter) (dcts : list Row) (opts : Opts)
  : result (list string * (list Z * list string)) :=
  let* L := format_layout self dcts opts in
  let* head := get_item (l_table L) 0 in
  let columns :=
    map (fun p => str (snd p))
      (List.filter (fun p => 0 <? fst p) (combine (l_widths L) head)) in
  let out :=
    if o_list_columns opts then []
    else map (line (o_wiki_table opts) (l_widths L) (l_signs L)) (l_table L) in
  Ok (out, (l_ids L, columns)).

(** ** [Formatter.__init__] (lines 45-68) and [run] (lines 235-291) *)

(** What the process does to the outside, in order. *)
Inductive event : Set :=
| PrintCount (s : string)                 (* line 255 *)
| WriteLine (line : string)               (* lines 230-231, on [sys.stdout] *)
| PrintColumn (label : bool) (col : string) (* lines 275-277 *)
| OpenWriter (filename : string)          (* [AtomsWriter(filename)] *)
| PrintWriting (i : Z) (filename : string) (* line 290 *)
| WriteConfig (filename : string) (dct : Row). (* [writer.write(at)] *)

(** The methods of [Formatter] that are modelled here, by name. *)
Definition builtin_methods (col : string) : option accessor :=
  if String.eqb col "id" then Some Formatter.id
  else if String.eqb col "user" then Some Formatter.user
  else if String.eqb col "energy" then Some Formatter.energy
  else if String.eqb col "size" then Some Formatter.size
  else if String.eqb col "fmax" then Some Formatter.fmax
  else if String.eqb col "fixed" then Some Formatter.fixed
  else None.

(** [c in s] for a one-character [c] *)
Fixpoint contains (c : ascii) (s : string) : bool :=
  match s with
  | EmptyString => false
  | String a s' => Ascii.eqb a c || contains c s'
  end.

Section Driver.

(** The collaborators outside the script:
    - [methods col] is [getattr(self, col, None)], the attribute of the
      [Formatter] instance named [col];
    - [plural] is [ase.db.cli.plural];
    - [select verbosity limit] is the list of rows that
      [con.select(expressions, verbosity=verbosity, limit=limit)] yields for
      the database and the expressions of the command line;
    - [percent template i] is [template % i].
    Opening a writer, rebuilding a configuration and writing it are taken
    to succeed. *)
Variable methods : string -> option accessor.
Variable plural : Z -> string -> string.
Variable select : Z -> Z -> list Row.
Variable percent : string -> Z -> result string.

Definition bind_column (col : string) : accessor :=
  match methods col with
  | Some f => f
  | None => Formatter.keyval_factory col
  end.

Definition Formatter_init (cols : option string) (sort : option string)
  : result Formatter :=
  let* columns := init_columns cols in
  Ok {| sort := sort; columns := columns; funcs := map bind_column columns |}.

(** Lines 262-267: the keys of all rows, in order of first appearance. *)
Definition add_key (keys : list string) (key : string) : list string :=
  if existsb (String.eqb key) keys then keys else keys ++ [key].

Definition collect_keys (dcts : list Row) : list string :=
  fold_left
    (fun keys dct =>
       match d_key_value_pairs dct with
       | Some kv => fold_left add_key (map fst kv) keys
       | None => keys
       end)
    dcts [].

(** Line 268 *)
Definition all_columns (dcts : list Row) : string :=
  Py.join "," (map (fun key => ("+" ++ key)%string) (collect_keys dcts)).

(** Lines 284-291: the loop over [enumerate(dcts)], from index [i];
    [single] says that the one writer of line 283 is in use. *)
Fixpoint extract_loop (extract : string) (single : bool) (verbosity : Z)
    (i : Z) (dcts : list Row) : list event * option exn :=
  match dcts with
  | [] => ([], None)
  | dct :: dcts' =>
      let opened :=
        if single then Ok (extract, [])
        else let* filename := percent extract i in
             Ok (filename, [OpenWriter filename]) in
      match opened with
      | Raise e => ([], Some e)
      | Ok (filename, ev) =>
          let ev :=
            ev ++ (if 1 <? verbosity then [PrintWriting i filename] else [])
               ++ [WriteConfig filename dct] in
          let '(tr, r) := extract_loop extract single verbosity (i + 1) dcts' in
          (ev ++ tr, r)
      end
  end.

(** Lines 281-291 *)
Definition extract_path (opts : Opts) (verbosity : Z) (dcts : list Row)
  : list event * option exn :=
  match o_extract opts with
  | None => ([], None)
  | Some extract =>
      let single := negb (contains "%" extract) in
      let '(tr, r) := extract_loop extract single verbosity 0 dcts in
      ((if single then [OpenWriter extract] else []) ++ tr, r)
  end.

Definition set_columns (opts : Opts) (cols : option string) : Opts :=
  {| o_count := o_count opts; o_list_columns := o_list_columns opts;
     o_columns := cols; o_include_all := o_include_all opts;
     o_sort := o_sort opts; o_uniq := o_uniq opts;
     o_extract := o_extract opts; o_limit := o_limit opts;
     o_wiki_table := o_wiki_table opts; o_cut := o_cut opts |}.

(** Lines 260-291, entered with a non-empty [dcts].  The local [columns]
    is [None] while it is unassigned. *)
Definition run_table (opts : Opts) (verbosity : Z) (dcts : list Row)
  : list event * option exn :=
  let opts :=
    if o_include_all opts || o_list_columns opts
    then set_columns opts (Some (all_columns dcts))
    else opts in
  match Formatter_init (o_columns opts) (o_sort opts) with
  | Raise e => ([], Some e)
  | Ok f =>
      let formatted :=
        if 1 <=? verbosity then
          let* (out, (ids, columns)) := format f dcts opts in
          Ok (map WriteLine out, Some columns)
        else Ok ([], None) in
      match formatted with
      | Raise e => ([], Some e)
      | Ok (tr, columns) =>
          if (1 <? verbosity) || o_list_columns opts then
            match columns with
            | None => (tr, Some UnboundLocalError)
            | Some columns =>
                let tr :=
                  tr ++ map (PrintColumn (negb (o_list_columns opts))) columns in
                if o_list_columns opts then (tr, None)
                else
                  let '(tr', r) := extract_path opts verbosity dcts in
                  (tr ++ tr', r)
            end
          else
            let '(tr', r) := extract_path opts verbosity dcts in
            (tr ++ tr', r)
      end
  end.

(** [run], from the selection on (lines 246-291): the events in order and
    the exception that ends the run, if any. *)
Definition run (opts : Opts) (verbosity : Z) : list event * option exn :=
  let limit := if o_count opts || o_uniq opts then 0 else o_limit opts in
  let rows := select verbosity limit in
  if o_count opts then
    ([PrintCount (plural (Z.of_nat (length rows)) "row")], None)
  else
    let dcts := rows in
    if 0 <? Z.of_nat (length dcts) then run_table opts verbosity dcts
    else ([], None).

End Driver.

(** ** Notions used to state the properties *)

(** A token of a column specification that names a column to append:
    non-empty and not starting with ['-']. *)
Definition plain_token (t : string) : bool :=
  match t with
  | String c _ => negb (Ascii.eqb c "-")
  | EmptyString => false
  end.

(** [c] is one of [names]. *)
Definition named (names : list string) (c : string) : bool :=
  existsb (String.eqb c) names.

(** The atoms whose entry in the mask is [False]. *)
Fixpoint unmasked_atoms (forces : list vec3) (m : list bool) : list vec3 :=
  match forces, m with
  | f :: forces', b :: m' =>
      if b then unmasked_atoms forces' m' else f :: unmasked_atoms forces' m'
  | _, _ => []
  end.

(** [x] is the square root of the largest of the squared magnitudes of
    [atoms]. *)
Definition max_magnitude (atoms : list vec3) (x : pyfloat) : Prop :=
  exists M : Q,
    x = FSqrt M /\ In M (map Np.sumsq atoms) /\
    Forall (fun q => (q <= M)%Q) (map Np.sumsq atoms).

(** The size of a cell, by the periodic axes: nothing to measure, a length,
    an area or a volume. *)
Definition size_by_periodicity (pbc : bool * bool * bool) (cell : mat3) : value :=
  let '(a, b, c) := cell in
  match pbc with
  | (false, false, false) => VStr ""
  | (true, false, false) => VFloat (Np.norm a)
  | (false, true, false) => VFloat (Np.norm b)
  | (false, false, true) => VFloat (Np.norm c)
  | (true, true, false) => VFloat (Np.norm (Np.cross a b))
  | (true, false, true) => VFloat (Np.norm (Np.cross a c))
  | (false, true, true) => VFloat (Np.norm (Np.cross b c))
  | (true, true, true) => VFloat (FQ (Qabs (Np.det cell)))
  end.

Definition zmax_list (l : list Z) : Z := fold_right Z.max 0 l.

(** The length of the string printed for entry [i] of a row. *)
Definition cell_len (i : nat) (row : list tcell) : Z :=
  match row !! i with
  | Some c => Py.len (str c)
  | None => 0
  end.

(** The longest string of column [i] among [rows]. *)
Definition longest (i : nat) (rows : list (list tcell)) : Z :=
  zmax_list (map (cell_len i) rows).

(** The maximal runs of equal consecutive rows, each with its length,
    starting from a run of [count] rows [first]. *)
Fixpoint runs (first : list string) (count : Z) (rows : list (list string))
  : list (list string * Z) :=
  match rows with
  | [] => [(first, count)]
  | row :: rows' =>
      if decide (row = first) then runs first (count + 1) rows'
      else (first, count) :: runs row 1 rows'
  end.



Definition is_digit (c : ascii) : bool :=
  (48 <=? Z.of_N (N_of_ascii c)) && (Z.of_N (N_of_ascii c) <=? 57).

Fixpoint all_digits (s : string) : bool :=
  match s with
  | EmptyString => true
  | String c s' => is_digit c && all_digits s'
  end.

(** An optional minus sign and at least one digit: no decimal point. *)
Definition no_decimals (s : string) : Prop :=
  exists sign ds : string,
    s = (sign ++ ds)%string /\ (sign = "" \/ sign = "-")%string /\
    ds <> EmptyString /\ all_digits ds = true.

(** An optional minus sign, at least one digit, a point and three digits. *)
Definition three_decimals (s : string) : Prop :=
  exists sign ip frac : string,
    s = (sign ++ ip ++ "." ++ frac)%string /\ (sign = "" \/ sign = "-")%string /\
    ip <> EmptyString /\ all_digits ip = true /\
    String.length frac = 3%nat /\ all_digits frac = true.

(** The accessor returns a string for this row: neither an [int] nor a
    [float]. *)
Definition textual (opts : Opts) (f : accessor) (dct : Row) : bool :=
  match f opts dct with
  | Ok (VStr _) => true
  | _ => false
  end.

(** [s] right- or left-justified in a field of [w] bytes. *)
Definition right_justified (w : Z) (s field : string) : Prop :=
  exists n : nat, field = (Py.spaces n ++ s)%string /\ Py.len field = w.

Definition left_justified (w : Z) (s field : string) : Prop :=
  exists n : nat, field = (s ++ Py.spaces n)%string /\ Py.len field = w.

(** The entries of [l] in the columns of positive width. *)
Definition shown {A : Type} (widths : list Z) (l : list A) : list A :=
  map snd (List.filter (fun p => 0 <? fst p) (combine widths l)).

(** A printed line with the given fields: separated by ['|'], and between
    two more ['|'] in a wiki table. *)
Definition joined (wiki_table : bool) (fields : list string) : string :=
  if wiki_table then ("|" ++ Py.join "|" fields ++ "|")%string
  else Py.join "|" fields.

(** A field that holds [s], with blanks before or after it. *)
Definition padded (s field : string) : Prop :=
  exists n : nat,
    field = (Py.spaces n ++ s)%string \/ field = (s ++ Py.spaces n)%string.

(** The cells of a row that are printed, each with the width and the sign
    of its column. *)
Definition printed_cells (widths signs : list Z) (row : list tcell)
  : list (Z * (Z * tcell)) :=
  shown widths (combine widths (combine signs row)).

(** A field for the cell [c] of a column of width [w] and sign [sign]. *)
Definition justified (p : Z * (Z * tcell)) (field : string) : Prop :=
  let '(w, (sign, c)) := p in
  (sign = 1 /\ right_justified w (str c) field)
  \/ (sign = -1 /\ left_justified w (str c) field).

(** ** Notions used to reason about [format] *)

(** What one accessor call contributes to the row, to the width of its
    column and to the sign of its column. *)
Definition rendered (v : value) : string :=
  match v with
  | VInt z => Py.fmt_d z
  | VFloat x => Fmt.f3 x
  | VStr s => s
  end.

Definition cell_str (opts : Opts) (dct : Row) (f : accessor) : string :=
  match f opts dct with
  | Ok v => rendered v
  | Raise _ => EmptyString
  end.

Definition cell_width (opts : Opts) (dct : Row) (f : accessor) (w : Z) : Z :=
  match f opts dct with
  | Ok v => Z.max w (Py.len (rendered v))
  | Raise _ => w
  end.

Definition cell_sign (opts : Opts) (dct : Row) (f : accessor) (sign : Z) : Z :=
  if textual opts f dct then -1 else sign.

(** The accessor raises something else than [AttributeError]. *)
Definition fatal (opts : Opts) (dct : Row) (f : accessor) : option exn :=
  match f opts dct with
  | Raise AttributeError => None
  | Raise e => Some e
  | Ok _ => None
  end.

(** The widths (or signs) once the cells of one row are done: entry
    [i + k] is updated by the [k]-th accessor. *)
Fixpoint update_from (g : accessor -> Z -> Z) (fs : list accessor) (i : nat)
    (l : list Z) : list Z :=
  match fs with
  | [] => l
  | f :: fs' => update_from g fs' (S i) (<[i := g f (default 0 (l !! i))]> l)
  end.

(** The widths (or signs) once all rows are done. *)
Fixpoint update_rows (g : Row -> accessor -> Z -> Z) (fs : list accessor)
    (dcts : list Row) (l : list Z) : list Z :=
  match dcts with
  | [] => l
  | dct :: dcts' => update_rows g fs dcts' (update_from (g dct) fs 0 l)
  end.

(** The rows that the row loop builds. *)
Definition cells (opts : Opts) (fs : list accessor) (dcts : list Row)
  : list (list string) :=
  map (fun dct => map (cell_str opts dct) fs) dcts.

(** The length of entry [i] of a row of strings. *)
Definition slen (i : nat) (row : list string) : Z :=
  Py.len (default EmptyString (row !! i)).

(** [k] decimal digits are needed for [n]. *)
Definition needs (n : Z) (k : Z) : Prop :=
  1 <= k /\ n < 10 ^ k /\ (k = 1 \/ 10 ^ (k - 1) <= n).

(** The lengths of the printed counts, and the rows with their counts. *)
Definition count_lens (gs : list (list string * Z)) : list Z :=
  map (fun g => Py.len (Py.fmt_d (snd g))) gs.

Definition counted (gs : list (list string * Z)) : list (list tcell) :=
  map (fun g => with_count (fst g) (snd g)) gs.

(** ** Notions used to reason about [run] *)

(** The line that [--count] prints. *)
Definition is_count_line (e : event) : Prop :=
  match e with
  | PrintCount _ => True
  | _ => False
  end.

(** A key that can stand in a column specification: non-empty, without a
    comma and not starting with ['-'] (the keys of the store are
    identifiers). *)
Definition valid_key (key : string) : bool :=
  plain_token key && negb (contains "," key).

(** [opts.limit] on line 249. *)
Definition effective_limit (opts : Opts) : Z :=
  if o_count opts || o_uniq opts then 0 else o_limit opts.

(** ** Example data *)

Definition opts0 : Opts :=
  {| o_count := false; o_list_columns := false; o_columns := None;
     o_include_all := false; o_sort := None; o_uniq := false;
     o_extract := None; o_limit := 500; o_wiki_table := false;
     o_cut := Some 30 |}.

Definition demo_forces : list vec3 := [(3, 4, 0); (0, 0, 1)]%Q.

Definition masked : constraint :=
  {| mask := Some [true; false]; indices := None |}.

Definition indexed : constraint :=
  {| mask := None; indices := Some [0] |}.

(** Two constraints, the first one with a mask; periodic along two axes. *)
Definition row0 : Row :=
  {| d_id := Some 1; d_user := Some "bob"%string; d_energy := Some (FQ (-5 # 4));
     d_forces := Some demo_forces;
     d_cell := Some ((2, 0, 0), (0, 3, 0), (0, 0, 4))%Q;
     d_pbc := Some (true, true, false);
     d_constraints := Some (Some [masked; indexed]);
     d_key_value_pairs := Some [("k", "v")]%string |}.

(** [constraints] is [None]; no energy, no forces, no cell; not periodic. *)
Definition row_free : Row :=
  {| d_id := Some 2; d_user := Some "alice"%string; d_energy := None;
     d_forces := None; d_cell := None;
     d_pbc := Some (false, false, false);
     d_constraints := Some None;
     d_key_value_pairs := None |}.

(** A row with forces and the given value of [constraints]. *)
Definition with_constraints (c : option (list constraint)) : Row :=
  {| d_id := Some 3; d_user := None; d_energy := None;
     d_forces := Some demo_forces; d_cell := None; d_pbc := None;
     d_constraints := Some c; d_key_value_pairs := None |}.

(** A row whose energy is not a number. *)
Definition row_nan : Row :=
  {| d_id := Some 5; d_user := Some "dave"%string; d_energy := Some FNaN;
     d_forces := None; d_cell := None; d_pbc := None;
     d_constraints := None; d_key_value_pairs := None |}.

Definition table_formatter : Formatter :=
  {| sort := None;
     columns := ["id"; "user"; "energy"; "size"]%string;
     funcs := [Formatter.id; Formatter.user; Formatter.energy; Formatter.size] |}.

(** The layout of [table_formatter] on [[row0; row_free]]. *)
Definition demo_layout : layout :=
  {| l_table :=
       [[TStr "id"; TStr "user"; TStr "energy"; TStr "size"];
        [TStr "1"; TStr "bob"; TStr "-1.250"; TStr "6.000"];
        [TStr "2"; TStr "alice"; TStr ""; TStr ""]];
     l_widths := [2; 5; 6; 5];
     l_signs := [1; -1; 1; -1];
     l_ids := [1; 2] |}.

Definition sparse_formatter : Formatter :=
  {| sort := None;
     columns := ["id"; "energy"]%string;
     funcs := [Formatter.id; Formatter.energy] |}.

(** A stand-in for [ase.db.cli.plural]. *)
Definition plural_demo (n : Z) (word : string) : string :=
  (Py.fmt_d n ++ " " ++ word ++ if (n =? 1)%Z then "" else "s")%string.

(** A stand-in for [template % i] with a single ['%d'] at the end. *)
Definition percent_demo (template : string) (i : Z) : result string :=
  Ok (template ++ Py.fmt_d i)%string.

Definition opts_quiet_list : Opts :=
  {| o_count := false; o_list_columns := true; o_columns := None;
     o_include_all := false; o_sort := None; o_uniq := false;
     o_extract := Some "out.xyz"%string; o_limit := 500; o_wiki_table := false;
     o_cut := Some 30 |}.

Definition opts_count_list : Opts :=
  {| o_count := true; o_list_columns := true; o_columns := None;
     o_include_all := false; o_sort := None; o_uniq := false;
     o_extract := None; o_limit := 500; o_wiki_table := false;
     o_cut := Some 30 |}.

(** ** Notions used for the further properties *)

(** The tokens of a non-empty column specification and the list that
    resolution starts from (lines 52-57). *)
Definition spec_tokens (cols : string) : list string :=
  match cols with
  | String "+" rest => Py.split "," rest
  | _ => Py.split "," cols
  end.

Definition spec_start (cols : string) : list string :=
  match cols with
  | String c0 _ =>
      if Ascii.eqb c0 "+" || Ascii.eqb c0 "-" then default_columns else []
  | EmptyString => default_columns
  end.

(** Entry [n] of a row, the key that [table.sort] compares. *)
Definition sort_key (n : nat) (row : list string) : string :=
  default EmptyString (row !! n).

(** The rows whose key is [k], in order. *)
Definition with_key (n : nat) (k : string) (rows : list (list string))
  : list (list string) :=
  List.filter (fun row => String.eqb (sort_key n row) k) rows.

(** What [run] prints on standard output. *)
Definition is_print (e : event) : bool :=
  match e with
  | PrintCount _ | WriteLine _ | PrintColumn _ _ | PrintWriting _ _ => true
  | OpenWriter _ | WriteConfig _ _ => false
  end.

(** A key whose column keeps its name: valid and not starting with ['+']. *)
Definition plain_key (key : string) : bool :=
  valid_key key && negb (Ascii.eqb (match key with String c _ => c | EmptyString => "+"%char end) "+").

(** The file names [template % 0], [template % 1], ... of [n] rows, or the
    first error. *)
Fixpoint file_names (percent : string -> Z -> result string)
    (template : string) (i : Z) (n : nat) : result (list string) :=
  match n with
  | O => Ok []
  | S n' =>
      let* name := percent template i in
      let* names := file_names percent template (i + 1) n' in
      Ok (name :: names)
  end.

(** The events of writing each row to its own file. *)
Definition write_each (names : list string) (dcts : list Row) : list event :=
  concat (map (fun p => [OpenWriter (fst p); WriteConfig (fst p) (snd p)])
            (combine names dcts)).

(** A row of the table on which no accessor raises anything but
    [AttributeError] and whose [id] is present. *)
Definition renders (opts : Opts) (fs : list accessor) (dct : Row) : Prop :=
  (forall f, In f fs -> fatal opts dct f = None) /\ d_id dct <> None.

(** A second row with key/value pairs. *)
Definition row_kv : Row :=
  {| d_id := Some 4; d_user := Some "carol"%string; d_energy := None;
     d_forces := None; d_cell := None; d_pbc := Some (true, false, true);
     d_constraints := None;
     d_key_value_pairs :=
       Some [("config_type", "diamond_structure"); ("k", "w")]%string |}.

(** The rows of a table with their sort keys, and the orders that
    [table.sort] works with: on the keyed rows and on the rows. *)
Definition keyed (n : nat) (rows : list (list string))
  : list (string * list string) :=
  map (fun row => (sort_key n row, row)) rows.

Definition fst_le (p q : string * list string) : Prop :=
  String.leb (fst p) (fst q) = true.

Definition key_le (n : nat) (r1 r2 : list string) : Prop :=
  String.leb (sort_key n r1) (sort_key n r2) = true.

(** The keys of one row: none when it has no [key_value_pairs]. *)
Definition keys_of (dct : Row) : list string :=
  match d_key_value_pairs dct with
  | Some kv => map fst kv
  | None => []
  end.

(** Options that only ask for extraction. *)
Definition opts_extract (extract : string) : Opts :=
  {| o_count := false; o_list_columns := false; o_columns := None;
     o_include_all := false; o_sort := None; o_uniq := false;
     o_extract := Some extract; o_limit := 500; o_wiki_table := false;
     o_cut := Some 30 |}.

(** * Properties *)

(** ** The model against Python, on examples *)

Example cut_examples :
  cut "abcdefgh" (Some 5) = "ab..."%string
  /\ cut "abcdefgh" (Some 8) = "abcdefgh"%string
  /\ cut "abcdefgh" (Some 0) = "abcdefgh"%string
  /\ cut "abcdefgh" None = "abcdefgh"%string
  /\ cut "abcd" (Some 2) = "abc..."%string.
Proof. repeat split. Qed.

Example split_examples :
  Py.split "," "a,b" = ["a"; "b"]%string
  /\ Py.split "," "" = [""]%string
  /\ Py.split "," "a," = ["a"; ""]%string
  /\ Py.lstrip "+" "++a+" = "a+"%string.
Proof. repeat split. Qed.

Example fmt_examples :
  Py.fmt_d 0 = "0"%string
  /\ Py.fmt_d (-12) = "-12"%string
  /\ Py.fmt_d 1234567890 = "1234567890"%string
  /\ Fmt.f3 (FQ (-5 # 4)) = "-1.250"%string
  /\ Fmt.f3 (FQ (1 # 3)) = "0.333"%string
  /\ Fmt.f3 (FQ (3 # 2000)) = "0.002"%string
  /\ Fmt.f3 (FSqrt 2) = "1.414"%string
  /\ Fmt.f3 (FSqrt 36) = "6.000"%string
  /\ Fmt.f3 (FQ (-1 # 10000)) = "-0.000"%string
  /\ Fmt.f3 FNaN = "nan"%string
  /\ Fmt.f3 (FInf true) = "-inf"%string
  /\ Py.fmt_star_s 5 "ab" = "   ab"%string
  /\ Py.fmt_star_s (-5) "ab" = "ab   "%string
  /\ Py.fmt_star_s 1 "ab" = "ab"%string.
Proof. repeat split. Qed.

(** The whole of [format] on two rows: the header, then one line per row. *)
Example format_example :
  format table_formatter [row0; row_free] opts0
  = Ok (["id|user |energy|size ";
         " 1|bob  |-1.250|6.000";
         " 2|alice|      |     "]%string,
        ([1; 2], ["id"; "user"; "energy"; "size"]%string)).
Proof. reflexivity. Qed.

(** ** Strings *)

Lemma append_cons (c : ascii) (s t : string) :
  (String c s ++ t)%string = String c (s ++ t).
Proof. reflexivity. Qed.

Lemma take_app_drop (n : nat) (s : string) :
  s = (Py.take n s ++ Py.drop n s)%string.
Proof.
  revert s; induction n as [|n IH]; intros [|c s]; simpl; try reflexivity.
  rewrite append_cons. f_equal. apply IH.
Qed.

Lemma length_take (n : nat) (s : string) :
  (n <= String.length s)%nat -> String.length (Py.take n s) = n.
Proof.
  revert s; induction n as [|n IH]; intros [|c s]; simpl; intros H;
    try reflexivity; try lia.
  rewrite IH; lia.
Qed.

Lemma length_append (s t : string) :
  String.length (s ++ t) = (String.length s + String.length t)%nat.
Proof.
  induction s as [|c s IH]; [reflexivity|].
  rewrite append_cons. simpl. now rewrite IH.
Qed.

Lemma len_nonneg (s : string) : 0 <= Py.len s.
Proof. unfold Py.len. lia. Qed.

Lemma len_append (s t : string) : Py.len (s ++ t) = Py.len s + Py.len t.
Proof. unfold Py.len. rewrite length_append. lia. Qed.

(** C3 (amended).  For every string [txt] and every truncation length
    [N >= 3]: if [len(txt) > N], then [cut txt N] is the first [N - 3] bytes
    of [txt] followed by ["..."], of length exactly [N]; if
    [len(txt) <= N], it is [txt].  For [N = 0] it is [txt] whatever its
    length. *)
Theorem cut_spec (txt : string) (N : Z) (HN : 3 <= N) :
  (N < Py.len txt ->
   exists pre suf : string,
     txt = (pre ++ suf)%string /\ Py.len pre = N - 3 /\
     cut txt (Some N) = (pre ++ "...")%string /\
     Py.len (cut txt (Some N)) = N)
  /\ (Py.len txt <= N -> cut txt (Some N) = txt)
  /\ cut txt (Some 0) = txt.
Proof.
  split; [|split].
  - intros Hlen.
    exists (Py.take (Z.to_nat (N - 3)) txt), (Py.drop (Z.to_nat (N - 3)) txt).
    assert (Hpre : Py.len (Py.take (Z.to_nat (N - 3)) txt) = N - 3).
    { unfold Py.len in *. rewrite length_take; lia. }
    assert (Hcut : cut txt (Some N)
                   = (Py.take (Z.to_nat (N - 3)) txt ++ "...")%string).
    { unfold cut, Py.slice_to.
      destruct (Z.eqb_spec N 0); [lia|].
      destruct (Z.leb_spec (Py.len txt) N); [lia|].
      destruct (Z.ltb_spec (N - 3) 0); [lia|]. reflexivity. }
    repeat split.
    + apply take_app_drop.
    + exact Hpre.
    + exact Hcut.
    + rewrite Hcut, len_append, Hpre. unfold Py.len; simpl. lia.
  - intros Hlen. unfold cut.
    destruct (Z.eqb_spec N 0); [reflexivity|].
    destruct (Z.leb_spec (Py.len txt) N); [reflexivity | lia].
  - reflexivity.
Qed.

(** [cut_spec] at ["abcdefgh"] and [5]. *)
Lemma cut_spec_witness : Py.len (cut "abcdefgh" (Some 5)) = 5.
Proof.
  destruct (cut_spec "abcdefgh" 5 ltac:(lia)) as [H _].
  destruct (H ltac:(vm_compute; reflexivity)) as (pre & suf & _ & _ & _ & Hlen).
  exact Hlen.
Defined.

(** C3 as stated fails for [N = 1]: line 39 slices with the negative bound
    [N - 3 = -2], so ["abcd"] becomes ["ab..."], of length 5. *)
Lemma cut_short_counterexample :
  0 < 1 /\ 1 < Py.len "abcd" /\
  cut "abcd" (Some 1) = "ab..."%string /\ Py.len (cut "abcd" (Some 1)) <> 1.
Proof. repeat split; vm_compute; congruence. Qed.

(** ** Column specifications *)

Lemma column_tokens_app (a b columns : list string) :
  column_tokens (a ++ b) columns
  = let* columns' := column_tokens a columns in column_tokens b columns'.
Proof.
  revert columns; induction a as [|t a IH]; intros columns; simpl.
  - reflexivity.
  - destruct (column_token t columns); simpl; [apply IH | reflexivity].
Qed.

Lemma column_token_plain (t : string) (columns : list string) :
  plain_token t = true ->
  column_token t columns = Ok (columns ++ [Py.lstrip "+" t]).
Proof.
  destruct t as [|c t]; simpl; [discriminate|].
  unfold column_token; simpl. intros H.
  now destruct (Ascii.eqb c "-").
Qed.

Lemma column_tokens_plain (toks columns : list string) :
  forallb plain_token toks = true ->
  column_tokens toks columns = Ok (columns ++ map (Py.lstrip "+") toks).
Proof.
  revert columns; induction toks as [|t toks IH]; intros columns H; simpl.
  - now rewrite app_nil_r.
  - simpl in H. apply andb_prop in H as [Ht Htoks].
    rewrite (column_token_plain _ _ Ht); simpl.
    rewrite (IH _ Htoks), <- app_assoc. reflexivity.
Qed.

Lemma filter_all {A : Type} (p : A -> bool) (l : list A) :
  (forall x, In x l -> p x = true) -> List.filter p l = l.
Proof.
  induction l as [|x l IH]; simpl; intros H; [reflexivity|].
  rewrite (H x (or_introl eq_refl)), IH; auto.
Qed.

Lemma list_remove_absent (x : string) (l : list string) :
  ~ In x l -> Py.list_remove x l = Raise ValueError.
Proof.
  induction l as [|y l IH]; simpl; intros H; [reflexivity|].
  destruct (String.eqb_spec y x) as [->|Hne]; [tauto|].
  rewrite IH; [reflexivity | tauto].
Qed.

Lemma list_remove_present (x : string) (l : list string) :
  List.NoDup l -> In x l ->
  Py.list_remove x l = Ok (List.filter (fun c => negb (String.eqb c x)) l).
Proof.
  induction l as [|y l IH]; simpl; intros Hnd Hin; [tauto|].
  inversion Hnd as [|? ? Hy Hl]; subst.
  destruct (String.eqb_spec y x) as [->|Hne]; simpl.
  - rewrite filter_all; [reflexivity|].
    intros z Hz. destruct (String.eqb_spec z x) as [->|]; [tauto | reflexivity].
  - destruct Hin as [->|Hin]; [congruence|].
    rewrite (IH Hl Hin). reflexivity.
Qed.

Lemma filter_named_cons (n : string) (names l : list string) :
  List.filter (fun c => negb (named names c))
    (List.filter (fun c => negb (String.eqb c n)) l)
  = List.filter (fun c => negb (named (n :: names) c)) l.
Proof.
  induction l as [|y l IH]; simpl; [reflexivity|].
  destruct (String.eqb y n); simpl; [exact IH|].
  destruct (named names y); simpl; [exact IH | now rewrite IH].
Qed.

Lemma column_tokens_minus (names columns : list string) :
  List.NoDup columns -> List.NoDup names -> incl names columns ->
  column_tokens (map (String "-") names) columns
  = Ok (List.filter (fun c => negb (named names c)) columns).
Proof.
  revert columns; induction names as [|n names IH]; intros columns Hc Hn Hin.
  - simpl. now rewrite filter_all.
  - inversion Hn as [|? ? Hn1 Hn2]; subst.
    cbn [map column_tokens]. unfold column_token. cbn [Py.first_char bind].
    change (Ascii.eqb "-" "-") with true. cbn [Py.drop].
    rewrite list_remove_present by (auto; apply Hin; now left).
    cbn [bind]. rewrite IH.
    + now rewrite filter_named_cons.
    + now apply List.NoDup_filter.
    + exact Hn2.
    + intros z Hz. apply filter_In. split.
      * apply Hin. now right.
      * destruct (String.eqb_spec z n) as [->|]; [tauto | reflexivity].
Qed.

Lemma split_head (sep c : ascii) (s t : string) (ts : list string) :
  Py.split sep s = String c t :: ts -> exists s', s = String c s'.
Proof.
  destruct s as [|a s]; simpl; [discriminate|].
  destruct (Ascii.eqb a sep); [discriminate|].
  destruct (Py.split sep s); intros [= -> _]; eauto.
Qed.

Lemma NoDup_default_columns : List.NoDup default_columns.
Proof.
  unfold default_columns.
  repeat (constructor; [simpl; intuition discriminate|]). constructor.
Qed.

(** C2 (amended).  A spec with a leading ['+'] all of whose tokens are
    non-empty and do not start with ['-'] resolves to the default list
    followed by the token names (leading ['+'] signs stripped) in order, a
    superset of the default list.  A spec all of whose tokens are ['-name'],
    for pairwise distinct names of the default list, resolves to the
    default list without these names, the remaining entries in order. *)
Theorem init_columns_signed (rest cols : string) (names : list string) :
  (forallb plain_token (Py.split "," rest) = true ->
   init_columns (Some (String "+" rest))
   = Ok (default_columns ++ map (Py.lstrip "+") (Py.split "," rest))
   /\ incl default_columns
        (default_columns ++ map (Py.lstrip "+") (Py.split "," rest)))
  /\ (Py.split "," cols = map (String "-") names ->
      names <> [] -> List.NoDup names -> incl names default_columns ->
      init_columns (Some cols)
      = Ok (List.filter (fun c => negb (named names c)) default_columns)).
Proof.
  split.
  - intros H. split; [|apply incl_appl, incl_refl].
    cbn [init_columns]. change (Ascii.eqb "+" "+") with true. cbn iota.
    now apply column_tokens_plain.
  - intros Hsplit Hne Hnd Hin.
    destruct names as [|n names]; [congruence|].
    destruct (split_head _ _ _ _ _ Hsplit) as [s' ->].
    cbn [init_columns]. change (Ascii.eqb "-" "+") with false.
    change (Ascii.eqb "-" "-") with true. cbn [negb].
    rewrite Hsplit.
    apply column_tokens_minus; auto using NoDup_default_columns.
Qed.

(** [init_columns_signed] at ["+x,+y"] and at ["-id,-age"]. *)
Lemma init_columns_signed_witness :
  init_columns (Some "+x,+y"%string) = Ok (default_columns ++ ["x"; "y"]%string)
  /\ init_columns (Some "-id,-age"%string)
     = Ok ["user"; "formula"; "calc"; "energy"; "fmax"; "pbc"; "size";
           "keywords"; "charge"; "mass"; "fixed"; "smax"; "magmom";
           "cell"]%string.
Proof.
  split.
  - apply (proj1 (init_columns_signed "x,+y" "" [])). reflexivity.
  - apply (proj2 (init_columns_signed "" "-id,-age" ["id"; "age"]%string)).
    + reflexivity.
    + discriminate.
    + repeat (constructor; [simpl; intuition discriminate|]). constructor.
    + intros z [<-|[<-|[]]]; simpl; tauto.
Defined.

(** C2 as stated fails: after a leading ['+'] a token ['-id'] removes a
    default column, so the result is no superset of the default list; after
    a leading ['-'] a token without its own sign is appended, so ['age'] is
    not removed but listed twice. *)
Lemma init_columns_signed_counterexample :
  (init_columns (Some "+x,-id"%string)
   = Ok ["age"; "user"; "formula"; "calc"; "energy"; "fmax"; "pbc"; "size";
         "keywords"; "charge"; "mass"; "fixed"; "smax"; "magmom"; "cell";
         "x"]%string
   /\ In "id"%string default_columns)
  /\ init_columns (Some "-id,age"%string)
     = Ok ["age"; "user"; "formula"; "calc"; "energy"; "fmax"; "pbc"; "size";
           "keywords"; "charge"; "mass"; "fixed"; "smax"; "magmom"; "cell";
           "age"]%string.
Proof. repeat split. simpl; tauto. Qed.

(** C8.  When the spec has no leading sign, resolution starts from the
    empty list; a token ['-name'] whose name is absent from the list built
    from the tokens before it makes [init_columns] raise [ValueError]
    ([list.remove]), [Formatter.__init__] propagates it, and so does [run],
    which ends with it before anything is written. *)
Theorem init_columns_remove_absent
    (c0 : ascii) (rest name : string) (pre post L : list string) :
  c0 <> "+"%char -> c0 <> "-"%char ->
  Py.split "," (String c0 rest) = pre ++ String "-" name :: post ->
  column_tokens pre [] = Ok L ->
  ~ In name L ->
  init_columns (Some (String c0 rest)) = Raise ValueError
  /\ (forall methods sort,
        Formatter_init methods (Some (String c0 rest)) sort = Raise ValueError)
  /\ (forall methods percent opts verbosity dcts,
        o_columns opts = Some (String c0 rest) ->
        o_include_all opts = false -> o_list_columns opts = false ->
        run_table methods percent opts verbosity dcts = ([], Some ValueError)).
Proof.
  intros Hplus Hminus Hsplit Hpre Hname.
  assert (Hinit : init_columns (Some (String c0 rest)) = Raise ValueError).
  { cbn [init_columns].
    destruct (Ascii.eqb_spec c0 "+"); [congruence|].
    destruct (Ascii.eqb_spec c0 "-"); [congruence|]. cbn [negb].
    rewrite Hsplit, column_tokens_app, Hpre. cbn [bind column_tokens].
    unfold column_token. cbn [Py.first_char bind].
    change (Ascii.eqb "-" "-") with true. cbn [Py.drop].
    now rewrite list_remove_absent. }
  split; [exact Hinit|]. split.
  - intros methods sort. unfold Formatter_init. now rewrite Hinit.
  - intros methods percent opts verbosity dcts Hcols Hall Hlist.
    unfold run_table. rewrite Hall, Hlist. cbn [orb].
    unfold Formatter_init. rewrite Hcols, Hinit. reflexivity.
Qed.

(** [init_columns_remove_absent] at ["a,-b"]. *)
Lemma init_columns_remove_absent_witness :
  init_columns (Some "a,-b"%string) = Raise ValueError.
Proof.
  apply (init_columns_remove_absent "a" ",-b" "b" ["a"%string] [] ["a"%string]).
  - discriminate.
  - discriminate.
  - reflexivity.
  - reflexivity.
  - simpl. intuition discriminate.
Defined.

(** ** Accessors *)

(** C7 (amended).  [size] returns the empty string (not [0]) when no axis
    is periodic; the norm of the periodic cell vector for one periodic
    axis; the norm of the cross product of the two periodic cell vectors
    for two; the absolute value of the determinant of the cell for
    three. *)
Theorem size_spec (opts : Opts) (d : Row) (pbc : bool * bool * bool) :
  d_pbc d = Some pbc ->
  (pbc = (false, false, false) -> Formatter.size opts d = Ok (VStr ""))
  /\ (forall cell : mat3,
        d_cell d = Some cell ->
        Formatter.size opts d = Ok (size_by_periodicity pbc cell)).
Proof.
  intros Hpbc. split.
  - intros ->. unfold Formatter.size. rewrite Hpbc. reflexivity.
  - intros [[a b] c] Hcell. unfold Formatter.size. rewrite Hpbc, Hcell.
    destruct pbc as [[[] []] []]; reflexivity.
Qed.

(** C7 as stated fails: for a row that is not periodic line 88 returns
    [''], which is neither the integer nor the float zero. *)
Lemma size_nonperiodic_counterexample :
  Formatter.size opts0 row_free = Ok (VStr "")
  /\ Formatter.size opts0 row_free <> Ok (VInt 0)
  /\ Formatter.size opts0 row_free <> Ok (VFloat (FQ 0)).
Proof. repeat split; vm_compute; discriminate. Qed.

(** [size_spec] at [row0], periodic along its first two axes. *)
Lemma size_spec_witness :
  Formatter.size opts0 row0 = Ok (VFloat (Np.norm (Np.cross (2, 0, 0) (0, 3, 0))%Q)).
Proof.
  exact (proj2 (size_spec opts0 row0 (true, true, false) eq_refl)
           ((2, 0, 0), (0, 3, 0), (0, 0, 4))%Q eq_refl).
Defined.

Lemma qmax_fold_spec (l : list Q) (x : Q) :
  In (fold_left Np.qmax l x) (x :: l)
  /\ Forall (fun q => (q <= fold_left Np.qmax l x)%Q) (x :: l).
Proof.
  revert x; induction l as [|y l IH]; intros x; simpl.
  - split; [now left|]. constructor; [apply Qle_refl | constructor].
  - destruct (IH (Np.qmax x y)) as [Hin Hall]. simpl in Hin.
    inversion Hall as [|? ? Hxy Hl]; subst.
    assert (Hx : (x <= Np.qmax x y)%Q /\ (y <= Np.qmax x y)%Q
                 /\ (Np.qmax x y = x \/ Np.qmax x y = y)).
    { unfold Np.qmax. destruct (Qle_bool x y) eqn:E.
      - apply Qle_bool_iff in E. repeat split; auto using Qle_refl.
      - repeat split; auto using Qle_refl.
        destruct (Qlt_le_dec y x) as [H|H]; [now apply Qlt_le_weak|].
        apply Qle_bool_iff in H. congruence. }
    destruct Hx as (Hx & Hy & Hsel). split.
    + destruct Hin as [Hin|Hin]; [|auto].
      rewrite <- Hin. destruct Hsel as [->| ->]; auto.
    + constructor; [eapply Qle_trans; eauto|].
      constructor; [eapply Qle_trans; eauto | exact Hl].
Qed.

Lemma max_norm_spec (atoms : list vec3) :
  atoms <> [] ->
  exists x, Formatter.max_norm atoms = Ok (VFloat x) /\ max_magnitude atoms x.
Proof.
  intros Hne. destruct atoms as [|a atoms]; [congruence|].
  unfold Formatter.max_norm. cbn [map Np.max bind].
  eexists. split; [reflexivity|].
  exists (fold_left Np.qmax (map Np.sumsq atoms) (Np.sumsq a)).
  split; [reflexivity|]. apply (qmax_fold_spec (map Np.sumsq atoms)).
Qed.

Lemma bool_index_invert (forces : list vec3) (m : list bool) :
  length m = length forces ->
  Np.bool_index forces (Np.invert m) = Ok (unmasked_atoms forces m).
Proof.
  intros Hlen. unfold Np.bool_index, Np.invert.
  rewrite length_map, <- Hlen, Nat.eqb_refl. f_equal.
  revert m Hlen; induction forces as [|f forces IH]; intros [|b m] Hlen;
    try discriminate; [reflexivity|].
  simpl. injection Hlen as Hlen. destruct b; simpl; rewrite IH; auto.
Qed.

(** C1 (amended).  For a row whose forces are present: with more than one
    constraint entry, the first of which carries no mask, [fmax] is the
    square root of the largest squared force magnitude over all atoms; with
    exactly one constraint, carrying a mask as long as the forces and
    leaving some atom free, it is the same quantity over the atoms whose
    mask entry is false; with [constraints] being [None] it raises
    [TypeError], which [cell_step] does not catch. *)
Theorem fmax_spec (opts : Opts) (d : Row) (forces : list vec3) :
  d_forces d = Some forces ->
  (forall c0 rest,
      d_constraints d = Some (Some (c0 :: rest)) -> rest <> [] ->
      mask c0 = None -> forces <> [] ->
      exists x, Formatter.fmax opts d = Ok (VFloat x) /\ max_magnitude forces x)
  /\ (forall c0 m,
        d_constraints d = Some (Some [c0]) -> mask c0 = Some m ->
        length m = length forces -> unmasked_atoms forces m <> [] ->
        exists x, Formatter.fmax opts d = Ok (VFloat x)
                  /\ max_magnitude (unmasked_atoms forces m) x)
  /\ (d_constraints d = Some None ->
      Formatter.fmax opts d = Raise TypeError
      /\ forall i st, cell_step opts d i Formatter.fmax st = Raise TypeError).
Proof.
  intros Hf. split; [|split].
  - intros c0 rest Hc Hrest Hmask Hne.
    destruct (max_norm_spec forces Hne) as (x & Hx & Hmax).
    exists x. split; [|exact Hmax].
    unfold Formatter.fmax. rewrite Hc, Hf. cbn [getattr bind Formatter.len_constraints].
    destruct (1 <? _); cbn [bind Formatter.first_constraint];
      rewrite Hmask; exact Hx.
  - intros c0 m Hc Hmask Hlen Hne.
    destruct (max_norm_spec _ Hne) as (x & Hx & Hmax).
    exists x. split; [|exact Hmax].
    unfold Formatter.fmax. rewrite Hc, Hf.
    cbn [getattr bind Formatter.len_constraints length Z.of_nat].
    cbn [Formatter.first_constraint bind]. rewrite Hmask. cbn [bind].
    rewrite (bool_index_invert _ _ Hlen). exact Hx.
  - intros Hc.
    assert (H : Formatter.fmax opts d = Raise TypeError).
    { unfold Formatter.fmax. rewrite Hc, Hf. reflexivity. }
    split; [exact H|]. intros i [[row widths] signs].
    unfold cell_step. rewrite H. reflexivity.
Qed.

(** ** The cell and row loops *)

Section Cells.

Variable opts : Opts.

Lemma cell_step_spec (dct : Row) (i : nat) (f : accessor)
    (row : list string) (widths signs : list Z) (w sign : Z) :
  widths !! i = Some w -> signs !! i = Some sign -> fatal opts dct f = None ->
  cell_step opts dct i f (row, widths, signs)
  = Ok (row ++ [cell_str opts dct f],
        <[i := cell_width opts dct f w]> widths,
        <[i := cell_sign opts dct f sign]> signs).
Proof.
  intros Hw Hs Hf.
  assert (Hiw : (i <? length widths)%nat = true)
    by (apply Nat.ltb_lt; eapply lookup_lt_Some; eauto).
  assert (His : (i <? length signs)%nat = true)
    by (apply Nat.ltb_lt; eapply lookup_lt_Some; eauto).
  unfold cell_step, cell_str, cell_width, cell_sign, textual, fatal in *.
  destruct (f opts dct) as [[z|x|s]|e]; cbn [bind rendered];
    unfold get_item, set_item; rewrite ?Hw, ?His; cbn [bind].
  - destruct (Z.ltb_spec w (Py.len (Py.fmt_d z))); rewrite ?Hiw; cbn [bind].
    + now rewrite Z.max_r, (list_insert_id signs i sign) by (auto; lia).
    + now rewrite Z.max_l, (list_insert_id signs i sign),
        (list_insert_id widths i w) by (auto; lia).
  - destruct (Z.ltb_spec w (Py.len (Fmt.f3 x))); rewrite ?Hiw; cbn [bind].
    + now rewrite Z.max_r, (list_insert_id signs i sign) by (auto; lia).
    + now rewrite Z.max_l, (list_insert_id signs i sign),
        (list_insert_id widths i w) by (auto; lia).
  - destruct (Z.ltb_spec w (Py.len s)); rewrite ?Hiw; cbn [bind].
    + now rewrite Z.max_r by lia.
    + now rewrite Z.max_l, (list_insert_id widths i w) by (auto; lia).
  - destruct e; try discriminate.
    now rewrite (list_insert_id signs i sign), (list_insert_id widths i w).
Qed.

Lemma cell_step_fatal (dct : Row) (i : nat) (f : accessor) st (e : exn) :
  fatal opts dct f = Some e -> cell_step opts dct i f st = Raise e.
Proof.
  destruct st as [[row widths] signs]. unfold fatal, cell_step.
  destruct (f opts dct) as [v|[]]; intros [= <-]; reflexivity.
Qed.

Lemma update_from_length g fs i l : length (update_from g fs i l) = length l.
Proof.
  revert i l; induction fs as [|f fs IH]; intros i l; simpl; [reflexivity|].
  now rewrite IH, length_insert.
Qed.

Lemma update_from_before g fs i l j :
  (j < i)%nat -> update_from g fs i l !! j = l !! j.
Proof.
  revert i l; induction fs as [|f fs IH]; intros i l Hj; simpl; [reflexivity|].
  rewrite IH by lia. apply list_lookup_insert_ne. lia.
Qed.

Lemma update_from_at g fs i l k f :
  fs !! k = Some f -> (i + length fs <= length l)%nat ->
  update_from g fs i l !! (i + k)%nat = Some (g f (default 0 (l !! (i + k)%nat))).
Proof.
  revert i l k; induction fs as [|f' fs IH]; intros i l k Hk Hlen;
    [discriminate|].
  simpl in Hlen. destruct k as [|k]; simpl in *.
  - injection Hk as ->. rewrite Nat.add_0_r, update_from_before by lia.
    apply list_lookup_insert_eq. lia.
  - replace (i + S k)%nat with (S i + k)%nat by lia.
    rewrite (IH (S i) _ k Hk) by (rewrite length_insert; lia).
    rewrite list_lookup_insert_ne by lia. reflexivity.
Qed.

Lemma update_from_after g fs i l j :
  (i + length fs <= j)%nat -> update_from g fs i l !! j = l !! j.
Proof.
  revert i l; induction fs as [|f fs IH]; intros i l Hj; simpl in *;
    [reflexivity|].
  rewrite IH by lia. apply list_lookup_insert_ne. lia.
Qed.

Lemma cell_loop_inv (dct : Row) (fs : list accessor) (i : nat)
    (row : list string) (widths signs : list Z) st :
  (i + length fs <= length widths)%nat ->
  (i + length fs <= length signs)%nat ->
  cell_loop opts dct fs i (row, widths, signs) = Ok st ->
  st = (row ++ map (cell_str opts dct) fs,
        update_from (cell_width opts dct) fs i widths,
        update_from (cell_sign opts dct) fs i signs).
Proof.
  revert i row widths signs; induction fs as [|f fs IH];
    intros i row widths signs Hw Hs H; cbn [cell_loop length map] in *.
  - injection H as <-. now rewrite app_nil_r.
  - destruct (fatal opts dct f) as [e|] eqn:He.
    { now rewrite (cell_step_fatal _ _ _ _ _ He) in H. }
    destruct (lookup_lt_is_Some_2 widths i ltac:(lia)) as [w Hwi].
    destruct (lookup_lt_is_Some_2 signs i ltac:(lia)) as [sg Hsi].
    rewrite (cell_step_spec _ _ _ _ _ _ _ _ Hwi Hsi He) in H. cbn [bind] in H.
    apply IH in H; [|rewrite length_insert; lia ..].
    cbn [update_from]. rewrite Hwi, Hsi, H, <- app_assoc. reflexivity.
Qed.

Lemma update_rows_length g fs dcts l :
  length (update_rows g fs dcts l) = length l.
Proof.
  revert l; induction dcts as [|d dcts IH]; intros l; simpl; [reflexivity|].
  now rewrite IH, update_from_length.
Qed.

Lemma update_rows_at g fs dcts l k f :
  fs !! k = Some f -> (length fs <= length l)%nat ->
  update_rows g fs dcts l !! k
  = Some (fold_left (fun w dct => g dct f w) dcts (default 0 (l !! k))).
Proof.
  intros Hk. revert l; induction dcts as [|d dcts IH]; intros l Hlen; simpl.
  - apply lookup_lt_Some in Hk.
    destruct (lookup_lt_is_Some_2 l k ltac:(lia)) as [w Hw]. now rewrite Hw.
  - rewrite IH by (now rewrite update_from_length).
    pose proof (update_from_at (g d) fs 0 l k f Hk Hlen) as H.
    simpl in H. now rewrite H.
Qed.

Lemma update_rows_after g fs dcts l j :
  (length fs <= j)%nat -> update_rows g fs dcts l !! j = l !! j.
Proof.
  intros Hj. revert l; induction dcts as [|d dcts IH]; intros l; simpl;
    [reflexivity|].
  rewrite IH. apply update_from_after. simpl. lia.
Qed.

Lemma row_loop_inv (fs : list accessor) (dcts : list Row)
    (table : list (list string)) (widths signs ids : list Z) st :
  (length fs <= length widths)%nat ->
  (length fs <= length signs)%nat ->
  row_loop opts fs dcts (table, widths, signs, ids) = Ok st ->
  exists ids',
    st = (table ++ map (fun dct => map (cell_str opts dct) fs) dcts,
          update_rows (cell_width opts) fs dcts widths,
          update_rows (cell_sign opts) fs dcts signs,
          ids ++ ids')
    /\ map d_id dcts = map Some ids'.
Proof.
  revert table widths signs ids; induction dcts as [|d dcts IH];
    intros table widths signs ids Hw Hs H; cbn [row_loop] in H.
  - injection H as <-. exists []. now rewrite !app_nil_r.
  - destruct (cell_loop opts d fs 0 ([], widths, signs)) as [st1|e] eqn:E;
      [|discriminate].
    apply cell_loop_inv in E; [|simpl; lia ..]. subst st1.
    cbn [bind] in H. destruct (d_id d) as [i|] eqn:Ei; [|discriminate].
    cbn [getattr bind] in H.
    apply IH in H; [|rewrite update_from_length; lia ..].
    destruct H as (ids' & -> & Hids). exists (i :: ids').
    cbn [map update_rows]. rewrite Ei, Hids, <- !app_assoc. split; reflexivity.
Qed.

End Cells.

(** ** Maxima *)

Lemma zmax_list_nonneg (l : list Z) : 0 <= zmax_list l.
Proof. induction l as [|x l IH]; simpl; lia. Qed.

Lemma zmax_list_ge (l : list Z) (x : Z) : In x l -> x <= zmax_list l.
Proof.
  induction l as [|y l IH]; simpl; [tauto|].
  intros [->|H]; [lia | specialize (IH H); lia].
Qed.

Lemma zmax_list_in (l : list Z) : zmax_list l = 0 \/ In (zmax_list l) l.
Proof.
  induction l as [|y l IH]; simpl; [now left|].
  destruct (Z.max_spec y (zmax_list l)) as [[_ ->]|[_ ->]]; [|now right; left].
  destruct IH; [now left | now right; right].
Qed.

Lemma zmax_list_incl (l l' : list Z) :
  incl l l' -> zmax_list l <= zmax_list l'.
Proof.
  intros H. destruct (zmax_list_in l) as [->|Hin].
  - apply zmax_list_nonneg.
  - apply zmax_list_ge, H, Hin.
Qed.

Lemma zmax_list_ext (l l' : list Z) :
  (forall x, In x l <-> In x l') -> zmax_list l = zmax_list l'.
Proof.
  intros H. apply Z.le_antisymm; apply zmax_list_incl; intros x; apply H.
Qed.

Lemma zmax_list_app (l l' : list Z) :
  zmax_list (l ++ l') = Z.max (zmax_list l) (zmax_list l').
Proof.
  induction l as [|x l IH]; simpl.
  - pose proof (zmax_list_nonneg l'). lia.
  - rewrite IH. lia.
Qed.

Lemma fold_cell_width (opts : Opts) (f : accessor) (dcts : list Row) (w : Z) :
  0 <= w ->
  fold_left (fun w dct => cell_width opts dct f w) dcts w
  = Z.max w (zmax_list (map (fun dct => Py.len (cell_str opts dct f)) dcts)).
Proof.
  revert w; induction dcts as [|d dcts IH]; intros w Hw; simpl; [lia|].
  rewrite IH.
  - unfold cell_width, cell_str. destruct (f opts d); [lia|].
    change (Py.len "") with 0.
    pose proof (zmax_list_nonneg
                  (map (fun dct => Py.len (cell_str opts dct f)) dcts)).
    unfold cell_str in *. lia.
  - unfold cell_width. destruct (f opts d); lia.
Qed.

Lemma fold_cell_sign (opts : Opts) (f : accessor) (dcts : list Row) (sign : Z) :
  fold_left (fun sign dct => cell_sign opts dct f sign) dcts sign
  = if existsb (textual opts f) dcts then -1 else sign.
Proof.
  revert sign; induction dcts as [|d dcts IH]; intros sign; simpl;
    [reflexivity|].
  rewrite IH. unfold cell_sign. destruct (textual opts f d); simpl;
    [now destruct (existsb _ _) | reflexivity].
Qed.

(** ** Sorting *)

Lemma insert_by_key_perm x l : Permutation (insert_by_key x l) (x :: l).
Proof.
  induction l as [|y l IH]; simpl; [reflexivity|].
  destruct (String.leb _ _); [reflexivity|].
  rewrite IH. apply perm_swap.
Qed.

Lemma stable_sort_perm l : Permutation (stable_sort l) l.
Proof.
  induction l as [|x l IH]; simpl; [reflexivity|].
  rewrite insert_by_key_perm. now constructor.
Qed.

Lemma sort_keys_inv n rows keyed :
  sort_keys n rows = Ok keyed -> map snd keyed = rows.
Proof.
  revert keyed; induction rows as [|row rows IH]; intros keyed; simpl.
  - now intros [= <-].
  - destruct (get_item row n); [|discriminate]. cbn [bind].
    destruct (sort_keys n rows) as [ks|]; [|discriminate]. cbn [bind].
    intros [= <-]. simpl. now rewrite (IH ks).
Qed.

Lemma sort_stage_inv self_columns sort header rows table :
  sort_stage self_columns sort (header :: rows) = Ok table ->
  exists rows', table = header :: rows' /\ Permutation rows' rows.
Proof.
  unfold sort_stage.
  destruct sort as [[|c s]|]; try (intros [= <-]; now exists rows).
  destruct (Py.list_index _ _); [|discriminate]. cbn [bind].
  destruct (sort_keys _ rows) as [keyed|] eqn:E; [|discriminate]. cbn [bind].
  intros [= <-]. eexists. split; [reflexivity|].
  rewrite <- (sort_keys_inv _ _ _ E).
  apply Permutation_map, stable_sort_perm.
Qed.

(** ** Decimal rendering *)

Lemma digit_is_digit (n : Z) : is_digit (Py.digit n) = true.
Proof.
  unfold Py.digit. destruct (n mod 10) as [|p|p]; try reflexivity;
    repeat (destruct p as [p|p|]; try reflexivity).
Qed.

Lemma all_digits_app (s t : string) :
  all_digits (s ++ t) = all_digits s && all_digits t.
Proof.
  induction s as [|c s IH]; [reflexivity|].
  rewrite append_cons. simpl. rewrite IH. now rewrite andb_assoc.
Qed.

Lemma digits_spec (fuel : nat) (n : Z) (acc : string) :
  0 <= n < 2 ^ Z.of_nat fuel -> (0 < fuel)%nat ->
  exists ds : string,
    Py.digits fuel n acc = (ds ++ acc)%string /\ all_digits ds = true
    /\ needs n (Py.len ds).
Proof.
  revert n acc; induction fuel as [|fuel IH]; intros n acc Hn Hfuel; [lia|].
  cbn [Py.digits]. destruct (Z.ltb_spec n 10) as [Hlt|Hge].
  - exists (String (Py.digit n) EmptyString). repeat split.
    + simpl. now rewrite digit_is_digit.
    + reflexivity.
    + change (Py.len _) with 1. simpl. lia.
    + now left.
  - assert (Hdiv : 0 <= n / 10 < 2 ^ Z.of_nat fuel).
    { split; [apply Z.div_pos; lia|].
      apply Z.div_lt_upper_bound; [lia|].
      rewrite Nat2Z.inj_succ, Z.pow_succ_r in Hn by lia. lia. }
    assert (Hf : (0 < fuel)%nat).
    { destruct fuel; [|lia]. simpl in Hn. lia. }
    destruct (IH (n / 10) (String (Py.digit n) acc) Hdiv Hf)
      as (ds & Heq & Hdig & Hk1 & Hup & Hlow).
    exists (ds ++ String (Py.digit n) EmptyString)%string. repeat split.
    + rewrite Heq. clear. induction ds as [|c ds IH]; [reflexivity|].
      rewrite !append_cons. now rewrite IH.
    + rewrite all_digits_app, Hdig. simpl. now rewrite digit_is_digit.
    + rewrite len_append. change (Py.len (String _ "")) with 1. lia.
    + rewrite len_append. change (Py.len (String _ "")) with 1.
      rewrite Z.pow_add_r by lia. change (10 ^ 1) with 10.
      pose proof (Z.div_mod n 10 ltac:(lia)).
      pose proof (Z.mod_pos_bound n 10 ltac:(lia)). lia.
    + right. rewrite len_append. change (Py.len (String _ "")) with 1.
      replace (Py.len ds + 1 - 1) with (Py.len ds) by lia.
      pose proof (Z.div_mod n 10 ltac:(lia)).
      pose proof (Z.mod_pos_bound n 10 ltac:(lia)).
      destruct Hlow as [->|Hlow]; [change (10 ^ 1) with 10; lia|].
      replace (Py.len ds) with (1 + (Py.len ds - 1)) by lia.
      rewrite Z.pow_add_r by lia. change (10 ^ 1) with 10. lia.
Qed.

Lemma decimal_spec (n : Z) :
  0 <= n ->
  all_digits (Py.decimal n) = true /\ needs n (Py.len (Py.decimal n)).
Proof.
  intros Hn. unfold Py.decimal.
  destruct (digits_spec (S (Z.to_nat (Z.log2 n))) n EmptyString)
    as (ds & Heq & Hdig & Hneeds); [|lia|].
  - split; [lia|]. rewrite Nat2Z.inj_succ, Z2Nat.id by apply Z.log2_nonneg.
    destruct (Z.eq_dec n 0) as [->|]; [reflexivity|].
    apply Z.log2_spec. lia.
  - rewrite Heq. clear Heq.
    replace (ds ++ "")%string with ds; [auto|].
    clear. induction ds as [|c ds IH]; [reflexivity|].
    rewrite append_cons. now rewrite <- IH.
Qed.




Lemma fmt_d_no_decimals (z : Z) : no_decimals (Py.fmt_d z).
Proof.
  unfold Py.fmt_d. destruct (Z.ltb_spec z 0).
  - exists "-"%string, (Py.decimal (- z)).
    destruct (decimal_spec (- z) ltac:(lia)) as (Hd & Hk & _).
    repeat split; auto. intros E. rewrite E in Hk. now vm_compute in Hk.
  - exists ""%string, (Py.decimal z).
    destruct (decimal_spec z ltac:(lia)) as (Hd & Hk & _).
    repeat split; auto. intros E. rewrite E in Hk. now vm_compute in Hk.
Qed.

Lemma f3_three_decimals (x : pyfloat) :
  Fmt.finite x = true -> three_decimals (Fmt.f3 x).
Proof.
  intros Hfin.
  assert (Hf3 : Fmt.f3 x
                = ((if Fmt.negative x then "-" else "")
                   ++ Py.fmt_d (Fmt.milli x / 1000) ++ "."
                   ++ String (Py.digit (Fmt.milli x / 100))
                        (String (Py.digit (Fmt.milli x / 10))
                           (String (Py.digit (Fmt.milli x)) EmptyString)))%string)
    by (destruct x; [reflexivity | reflexivity | discriminate | discriminate]).
  rewrite Hf3.
  assert (Hm : 0 <= Fmt.milli x).
  { unfold Fmt.milli, Fmt.round_half_even.
    destruct x as [q|q| |neg]; try discriminate.
    - pose proof (Z.div_pos (Z.abs (Qnum q) * 1000) (Z.pos (Qden q))
                    ltac:(lia) ltac:(lia)).
      repeat destruct (_ <? _); try destruct (Z.even _); lia.
    - pose proof (Z.sqrt_nonneg (Qnum q * 1000000 / Z.pos (Qden q))).
      repeat destruct (_ <? _); try destruct (Z.even _); lia. }
  assert (Hip : 0 <= Fmt.milli x / 1000) by (apply Z.div_pos; lia).
  destruct (decimal_spec _ Hip) as (Hd & Hk & _).
  assert (Hfmt : Py.fmt_d (Fmt.milli x / 1000) = Py.decimal (Fmt.milli x / 1000)).
  { unfold Py.fmt_d. destruct (Z.ltb_spec (Fmt.milli x / 1000) 0); [lia|auto]. }
  rewrite Hfmt.
  exists (if Fmt.negative x then "-" else "")%string,
    (Py.decimal (Fmt.milli x / 1000)),
    (String (Py.digit (Fmt.milli x / 100))
       (String (Py.digit (Fmt.milli x / 10))
          (String (Py.digit (Fmt.milli x)) EmptyString))).
  repeat split; auto.
  - destruct (Fmt.negative x); auto.
  - intros E. rewrite E in Hk. now vm_compute in Hk.
  - simpl. now rewrite !digit_is_digit.
Qed.

(** ** Deduplication *)

Lemma update_last_snoc (f : Z -> Z) (init : list Z) (w : Z) :
  update_last f (init ++ [w]) = Ok (init ++ [f w]).
Proof.
  unfold update_last. destruct (init ++ [w]) eqn:E.
  - now destruct init.
  - rewrite <- E, removelast_last, last_last. reflexivity.
Qed.

Lemma uniq_loop_spec (table : list (list string)) (first_row : list string)
    (count : Z) (uniq_table : list (list tcell)) (init : list Z) (w : Z) :
  uniq_loop table first_row count uniq_table (init ++ [w])
  = Ok (uniq_table ++ counted (runs first_row count table),
        init ++ [Z.max w (zmax_list (count_lens (runs first_row count table)))]).
Proof.
  revert first_row count uniq_table w;
    induction table as [|row table IH]; intros first_row count uniq_table w;
    cbn [uniq_loop runs].
  - rewrite update_last_snoc. cbn [bind].
    unfold counted, count_lens, count_width.
    cbn [map fst snd zmax_list fold_right].
    pose proof (len_nonneg (Py.fmt_d count)). do 3 f_equal.
    apply (f_equal (fun x => [x])). lia.
  - destruct (decide (row = first_row)) as [->|Hne].
    + apply IH.
    + rewrite update_last_snoc. cbn [bind]. rewrite IH.
      unfold counted, count_lens, count_width. cbn [map fst snd zmax_list fold_right].
      rewrite <- app_assoc. do 3 f_equal.
      apply (f_equal (fun x => [x])). unfold zmax_list. lia.
Qed.





Lemma runs_rows (first : list string) (count : Z) (rows : list (list string)) r :
  In r (map fst (runs first count rows)) <-> In r (first :: rows).
Proof.
  revert first count; induction rows as [|row rows IH]; intros first count;
    cbn [runs].
  - simpl. tauto.
  - destruct (decide (row = first)) as [->|Hne].
    + rewrite IH. simpl. tauto.
    + cbn [map fst In]. rewrite IH. simpl. tauto.
Qed.


(** ** The layout *)

Lemma lookup_map {A B : Type} (f : A -> B) (l : list A) (i : nat) :
  map f l !! i = option_map f (l !! i).
Proof.
  revert i; induction l as [|x l IH]; intros [|i]; simpl; auto.
Qed.

Lemma lookup_combine {A B : Type} (l : list A) (l' : list B) (i : nat) x y :
  l !! i = Some x -> l' !! i = Some y -> combine l l' !! i = Some (x, y).
Proof.
  revert l' i; induction l as [|a l IH]; intros [|b l'] [|i]; simpl;
    try discriminate; [congruence | apply IH].
Qed.

Lemma final_widths_lookup (widths : list Z) (columns : list string) i w col :
  widths !! i = Some w -> columns !! i = Some col ->
  final_widths widths columns !! i = Some (final_width w col).
Proof.
  intros Hw Hc. unfold final_widths.
  now rewrite lookup_map, (lookup_combine _ _ _ _ _ Hw Hc).
Qed.

Lemma final_widths_length (widths : list Z) (columns : list string) :
  length widths = length columns ->
  length (final_widths widths columns) = length columns.
Proof.
  intros H. unfold final_widths. rewrite length_map, length_combine. lia.
Qed.

Lemma cell_len_TStr (i : nat) (row : list string) :
  cell_len i (map TStr row) = slen i row.
Proof.
  unfold cell_len, slen. rewrite lookup_map. now destruct (row !! i).
Qed.

Lemma cell_len_with_count (i : nat) (row : list string) (c : Z) :
  (i < length row)%nat -> cell_len i (with_count row c) = slen i row.
Proof.
  intros H. unfold cell_len, slen, with_count.
  rewrite lookup_app_l by (now rewrite length_map).
  rewrite lookup_map. now destruct (row !! i).
Qed.

Lemma cell_len_count (row : list string) (c : Z) :
  cell_len (length row) (with_count row c) = Py.len (Py.fmt_d c).
Proof.
  unfold cell_len, with_count.
  rewrite lookup_app_r by (now rewrite length_map).
  now rewrite length_map, Nat.sub_diag.
Qed.

Lemma zmax_list_perm (l l' : list Z) :
  Permutation l l' -> zmax_list l = zmax_list l'.
Proof.
  intros H. apply zmax_list_ext. intros x. split; apply Permutation_in; auto.
  now symmetry.
Qed.

Lemma zmax_list_map_ext {A : Type} (f g : A -> Z) (l : list A) :
  (forall x, In x l -> f x = g x) -> zmax_list (map f l) = zmax_list (map g l).
Proof.
  intros H. f_equal. apply map_ext_in, H.
Qed.

Lemma cells_length opts fs dcts row :
  In row (cells opts fs dcts) -> length row = length fs.
Proof.
  unfold cells. intros H. apply in_map_iff in H as (d & <- & _).
  apply length_map.
Qed.

Lemma cells_column opts fs dcts i f :
  fs !! i = Some f ->
  map (slen i) (cells opts fs dcts)
  = map (fun dct => Py.len (cell_str opts dct f)) dcts.
Proof.
  intros Hf. unfold cells. rewrite map_map. apply map_ext. intros d.
  unfold slen. now rewrite lookup_map, Hf.
Qed.

Lemma lookup_const {A : Type} (l : list A) (c : Z) (i : nat) :
  (i < length l)%nat -> map (fun _ => c) l !! i = Some c.
Proof.
  intros H. rewrite lookup_map.
  destruct (lookup_lt_is_Some_2 l i H) as [x ->]. reflexivity.
Qed.

Lemma header_length (self : Formatter) (opts : Opts) :
  length (header self opts)
  = (length (columns self) + if o_uniq opts then 1 else 0)%nat.
Proof.
  unfold header, self_columns.
  destruct (o_wiki_table opts), (o_uniq opts);
    rewrite ?length_map, ?length_app; simpl; lia.
Qed.

Lemma split_last (l : list Z) :
  l <> [] -> exists init w, l = init ++ [w].
Proof.
  intros H. exists (removelast l), (List.last l 0).
  now apply app_removelast_last.
Qed.

Lemma format_layout_spec (self : Formatter) (dcts : list Row) (opts : Opts)
    (L : layout) :
  length (funcs self) = length (columns self) ->
  format_layout self dcts opts = Ok L ->
  exists data : list (list tcell),
    l_table L = map TStr (header self opts) :: data
    /\ length (l_widths L) = length (header self opts)
    /\ length (l_signs L) = length (header self opts)
    /\ (forall i col, header self opts !! i = Some col ->
          l_widths L !! i = Some (final_width (longest i data) col))
    /\ (forall i f, funcs self !! i = Some f ->
          l_signs L !! i
          = Some (if existsb (textual opts f) dcts then -1 else 1))
    /\ (o_uniq opts = true -> l_signs L !! length (funcs self) = Some 1).
Proof.
  intros Hinit H. unfold format_layout in H.
  pose proof (header_length self opts) as Hn. rewrite <- Hinit in Hn.
  set (hd := header self opts) in *.
  set (fs := funcs self) in *.
  assert (Hle : (length fs <= length hd)%nat)
    by (destruct (o_uniq opts); lia).
  destruct (row_loop _ _ _ _) as [st|] eqn:E1; [|discriminate].
  apply row_loop_inv in E1 as (ids' & -> & Hids);
    [|rewrite length_map; lia ..].
  cbn [bind app] in H.
  fold (cells opts fs dcts) in H.
  destruct (sort_stage _ _ _) as [table2|] eqn:E2; [|discriminate].
  apply sort_stage_inv in E2 as (rows2 & -> & Hperm). cbn [bind] in H.
  set (widths1 := update_rows (cell_width opts) fs dcts (map (fun _ => 0) hd)) in *.
  set (signs1 := update_rows (cell_sign opts) fs dcts (map (fun _ => 1) hd)) in *.
  assert (Hw1len : length widths1 = length hd).
  { unfold widths1. now rewrite update_rows_length, length_map. }
  assert (Hs1len : length signs1 = length hd).
  { unfold signs1. now rewrite update_rows_length, length_map. }
  assert (Hw1 : forall i f, fs !! i = Some f ->
            widths1 !! i = Some (zmax_list (map (slen i) rows2))).
  { intros i f Hf. unfold widths1.
    rewrite (update_rows_at _ _ _ _ _ _ Hf) by (rewrite length_map; lia).
    rewrite lookup_const by (apply lookup_lt_Some in Hf; fold fs in Hf; lia).
    change (default 0 (Some 0)) with 0. rewrite fold_cell_width by lia.
    rewrite <- (cells_column opts fs dcts i f Hf).
    rewrite (zmax_list_perm _ _ (Permutation_map (slen i) Hperm)).
    pose proof (zmax_list_nonneg (map (slen i) (cells opts fs dcts))).
    f_equal. lia. }
  assert (Hs1 : forall i f, fs !! i = Some f ->
            signs1 !! i = Some (if existsb (textual opts f) dcts then -1 else 1)).
  { intros i f Hf. unfold signs1.
    rewrite (update_rows_at _ _ _ _ _ _ Hf) by (rewrite length_map; lia).
    rewrite lookup_const by (apply lookup_lt_Some in Hf; fold fs in Hf; lia).
    change (default 0 (Some 1)) with 1. now rewrite fold_cell_sign. }
  assert (Hrows2 : forall row, In row rows2 -> length row = length fs).
  { intros row Hin. apply (cells_length opts fs dcts).
    eapply Permutation_in; eauto. }
  destruct (o_uniq opts) eqn:Eu.
  - (* deduplication *)
    unfold uniq_stage in H. destruct rows2 as [|r0 rest]; [discriminate|].
    destruct (split_last widths1) as (init & w0 & Hsplit).
    { intros E. rewrite E in Hw1len. simpl in Hw1len. lia. }
    assert (Hinit_len : length init = length fs).
    { rewrite Hsplit, length_app in Hw1len. simpl in Hw1len. lia. }
    assert (Hw0 : w0 = 0).
    { assert (Hl : widths1 !! length fs = Some w0).
      { rewrite Hsplit, lookup_app_r by lia.
        now rewrite Hinit_len, Nat.sub_diag. }
      unfold widths1 in Hl. rewrite update_rows_after in Hl by lia.
      rewrite lookup_const in Hl by lia. congruence. }
    rewrite Hsplit, uniq_loop_spec in H. cbn [bind] in H.
    injection H as <-. cbn [l_table l_widths l_signs].
    set (gs := runs r0 1 rest) in *.
    exists (counted gs). split; [reflexivity|].
    assert (Hgs : forall g, In g gs -> length (fst g) = length fs).
    { intros g Hg. apply Hrows2. apply (runs_rows r0 1 rest).
      now apply in_map. }
    split; [|split; [|split; [|split]]].
    + apply final_widths_length. rewrite length_app. simpl. lia.
    + exact Hs1len.
    + intros i col Hcol.
      assert (Hi : (i < length fs + 1)%nat)
        by (apply lookup_lt_Some in Hcol; lia).
      apply final_widths_lookup; [|exact Hcol].
      destruct (Nat.eq_dec i (length fs)) as [->|Hne].
      * rewrite lookup_app_r by lia. rewrite Hinit_len, Nat.sub_diag.
        cbn [lookup list_lookup]. f_equal. rewrite Hw0.
        unfold longest, counted. rewrite map_map.
        pose proof (zmax_list_nonneg (count_lens gs)).
        rewrite Z.max_r by lia. unfold count_lens.
        apply zmax_list_map_ext. intros g Hg.
        rewrite <- (Hgs g Hg). symmetry. apply cell_len_count.
      * destruct (lookup_lt_is_Some_2 fs i ltac:(lia)) as [f Hf].
        rewrite lookup_app_l by lia.
        pose proof (Hw1 i f Hf) as Hwi.
        rewrite Hsplit, lookup_app_l in Hwi by lia. rewrite Hwi. f_equal.
        unfold longest, counted. rewrite map_map.
        transitivity (zmax_list (map (slen i) (map fst gs))).
        -- apply zmax_list_ext. intros x. rewrite !in_map_iff. split.
           ++ intros (r & <- & Hr). exists r. split; [reflexivity|].
              now apply (runs_rows r0 1 rest).
           ++ intros (r & <- & Hr). exists r. split; [reflexivity|].
              now apply (runs_rows r0 1 rest) in Hr.
        -- rewrite map_map. apply zmax_list_map_ext. intros g Hg.
           symmetry. apply cell_len_with_count. rewrite (Hgs g Hg). lia.
    + exact Hs1.
    + intros _. unfold signs1. rewrite update_rows_after by lia.
      apply lookup_const. lia.
  - (* no deduplication *)
    injection H as <-. cbn [l_table l_widths l_signs].
    exists (map (map TStr) rows2). split; [reflexivity|].
    split; [|split; [|split; [|split]]].
    + now apply final_widths_length.
    + exact Hs1len.
    + intros i col Hcol.
      assert (Hi : (i < length fs)%nat)
        by (apply lookup_lt_Some in Hcol; lia).
      destruct (lookup_lt_is_Some_2 fs i Hi) as [f Hf].
      apply final_widths_lookup; [|exact Hcol].
      rewrite (Hw1 i f Hf). f_equal. unfold longest. rewrite map_map.
      apply zmax_list_map_ext. intros row _. symmetry. apply cell_len_TStr.
    + exact Hs1.
    + discriminate.
Qed.

(** ** Justification *)

Lemma len_spaces (n : nat) : Py.len (Py.spaces n) = Z.of_nat n.
Proof.
  unfold Py.spaces. induction n as [|n IH]; [reflexivity|].
  cbn [repeat]. destruct n as [|n].
  - reflexivity.
  - cbn [repeat String.concat] in *. rewrite !len_append in *.
    change (Py.len " ") with 1. change (Py.len "") with 0 in *. lia.
Qed.

Lemma fmt_star_s_right (w : Z) (s : string) :
  0 < w -> Py.len s <= w -> right_justified w s (Py.fmt_star_s (w * 1) s).
Proof.
  intros Hw Hs. unfold right_justified, Py.fmt_star_s.
  destruct (Z.ltb_spec (w * 1) 0); [lia|].
  eexists. split; [reflexivity|].
  rewrite len_append, len_spaces. pose proof (len_nonneg s). lia.
Qed.

Lemma fmt_star_s_left (w : Z) (s : string) :
  0 < w -> Py.len s <= w -> left_justified w s (Py.fmt_star_s (w * -1) s).
Proof.
  intros Hw Hs. unfold left_justified, Py.fmt_star_s.
  destruct (Z.ltb_spec (w * -1) 0); [|lia].
  eexists. split; [reflexivity|].
  rewrite len_append, len_spaces. pose proof (len_nonneg s). lia.
Qed.

Lemma longest_ge (i : nat) (data : list (list tcell)) (row : list tcell) c :
  In row data -> row !! i = Some c -> Py.len (str c) <= longest i data.
Proof.
  intros Hin Hc. unfold longest. apply zmax_list_ge.
  apply in_map_iff. exists row. split; [|exact Hin].
  unfold cell_len. now rewrite Hc.
Qed.

Lemma longest_nonneg (i : nat) (data : list (list tcell)) : 0 <= longest i data.
Proof. apply zmax_list_nonneg. Qed.

(** ** Theorems on the table *)

(** [Formatter.__init__] binds one function per column. *)
Lemma Formatter_init_lengths (methods : string -> option accessor)
    (cols sort : option string) (self : Formatter) :
  Formatter_init methods cols sort = Ok self ->
  length (funcs self) = length (columns self).
Proof.
  unfold Formatter_init. destruct (init_columns cols); [|discriminate].
  cbn [bind]. intros [= <-]. cbn [funcs columns]. apply length_map.
Qed.




(** ** The driver *)

(** C9.  When the selection yields no row, [run] writes no table line,
    prints no column, opens no writer and writes no configuration, whatever
    [--extract] says: under [--count] the only event is the count line of
    line 255, otherwise there is none; [run] returns normally. *)
Theorem run_no_rows (methods : string -> option accessor)
    (plural : Z -> string -> string) (select : Z -> Z -> list Row)
    (percent : string -> Z -> result string) (opts : Opts) (verbosity : Z) :
  select verbosity (effective_limit opts) = [] ->
  run methods plural select percent opts verbosity
  = (if o_count opts then [PrintCount (plural 0 "row")] else [], None)
  /\ Forall is_count_line
       (fst (run methods plural select percent opts verbosity)).
Proof.
  intros Hsel. unfold effective_limit in Hsel.
  assert (H : run methods plural select percent opts verbosity
              = (if o_count opts then [PrintCount (plural 0 "row")] else [],
                 None)).
  { unfold run. rewrite Hsel. now destruct (o_count opts). }
  split; [exact H|]. rewrite H.
  destruct (o_count opts); cbn [fst]; repeat constructor.
Qed.

(** [run_no_rows] with an extract file name given. *)
Lemma run_no_rows_witness :
  run builtin_methods plural_demo (fun _ _ => []) percent_demo
    opts_quiet_list 1
  = ([], None).
Proof.
  apply (proj1 (run_no_rows builtin_methods plural_demo (fun _ _ => [])
                  percent_demo opts_quiet_list 1 eq_refl)).
Defined.

(** *** Splitting and joining *)

Lemma split_comma_free (s : string) :
  contains "," s = false -> Py.split "," s = [s].
Proof.
  induction s as [|c s IH]; [reflexivity|].
  cbn [contains Py.split]. intros H. apply orb_false_elim in H as [Hc Hs].
  rewrite Hc, (IH Hs). reflexivity.
Qed.

Lemma split_app (s rest : string) :
  contains "," s = false ->
  Py.split "," (s ++ String "," rest) = s :: Py.split "," rest.
Proof.
  induction s as [|c s IH]; intros H.
  - reflexivity.
  - cbn [contains] in H. apply orb_false_elim in H as [Hc Hs].
    rewrite append_cons. cbn [Py.split]. rewrite Hc, (IH Hs). reflexivity.
Qed.

Lemma split_join (toks : list string) :
  toks <> [] -> forallb (fun t => negb (contains "," t)) toks = true ->
  Py.split "," (Py.join "," toks) = toks.
Proof.
  unfold Py.join. induction toks as [|t toks IH]; [congruence|].
  intros _ H. cbn [forallb] in H. apply andb_prop in H as [Ht Htoks].
  apply negb_true_iff in Ht.
  destruct toks as [|t' toks].
  - cbn [String.concat]. now apply split_comma_free.
  - change (String.concat "," (t :: t' :: toks))
      with (t ++ String "," (String.concat "," (t' :: toks)))%string.
    rewrite split_app by exact Ht. f_equal. apply IH; [discriminate | exact Htoks].
Qed.

Lemma join_plus (key : string) (keys : list string) :
  Py.join "," (map (fun key => ("+" ++ key)%string) (key :: keys))
  = String "+" (Py.join "," (key :: map (fun key => ("+" ++ key)%string) keys)).
Proof.
  unfold Py.join. cbn [map]. destruct keys as [|k keys]; reflexivity.
Qed.

Lemma init_columns_valid_keys (keys : list string) :
  forallb valid_key keys = true ->
  exists columns,
    init_columns
      (Some (Py.join "," (map (fun key => ("+" ++ key)%string) keys)))
    = Ok columns.
Proof.
  intros H. destruct keys as [|key keys].
  - eexists. reflexivity.
  - rewrite join_plus. cbn [init_columns].
    change (Ascii.eqb "+" "+") with true. cbn iota.
    cbn [forallb] in H. apply andb_prop in H as [Hk Hks].
    unfold valid_key in Hk. apply andb_prop in Hk as [Hk1 Hk2].
    assert (Hplus : forall l, forallb valid_key l = true ->
              forallb (fun t => negb (contains "," t))
                (map (fun key => ("+" ++ key)%string) l) = true
              /\ forallb plain_token
                   (map (fun key => ("+" ++ key)%string) l) = true).
    { induction l as [|k l IHl]; [now split|]. cbn [forallb map].
      intros Hl. apply andb_prop in Hl as [Hv Hl].
      destruct (IHl Hl) as [-> ->].
      unfold valid_key in Hv. apply andb_prop in Hv as [_ Hv].
      change ("+" ++ k)%string with (String "+" k).
      cbn [contains plain_token]. change (Ascii.eqb "+" ",") with false.
      change (Ascii.eqb "+" "-") with false. cbn [orb negb andb].
      now rewrite Hv. }
    destruct (Hplus keys Hks) as [Hc Hp].
    rewrite split_join; [| discriminate | cbn [forallb]; now rewrite Hk2, Hc].
    eexists. apply column_tokens_plain. cbn [forallb]. now rewrite Hk1, Hp.
Qed.

(** C10 (amended).  Without [--count], with a non-empty selection whose
    keys are valid, [--list-columns] at verbosity 0 ends [run] with
    [UnboundLocalError] before anything is written: [format] is not called
    and line 274 reads the unassigned [columns]. *)
Theorem run_list_columns_quiet (methods : string -> option accessor)
    (plural : Z -> string -> string) (select : Z -> Z -> list Row)
    (percent : string -> Z -> result string) (opts : Opts) :
  o_count opts = false ->
  o_list_columns opts = true ->
  select 0 (effective_limit opts) <> [] ->
  forallb valid_key (collect_keys (select 0 (effective_limit opts))) = true ->
  run methods plural select percent opts 0 = ([], Some UnboundLocalError).
Proof.
  intros Hcount Hlist Hrows Hkeys. unfold effective_limit in *.
  unfold run. rewrite Hcount in *. cbn [orb] in *.
  set (dcts := select 0 (if o_uniq opts then 0 else o_limit opts)) in *.
  destruct dcts as [|d dcts'] eqn:E; [congruence|]. rewrite <- E in *.
  replace (0 <? Z.of_nat (length dcts)) with true
    by (rewrite E; cbn [length]; symmetry; apply Z.ltb_lt; lia).
  unfold run_table. rewrite Hlist, orb_true_r.
  cbn [set_columns o_columns o_sort o_list_columns].
  destruct (init_columns_valid_keys _ Hkeys) as [columns Hinit].
  unfold Formatter_init, all_columns. rewrite Hinit. cbn [bind].
  change (1 <=? 0) with false. cbn iota. now rewrite Hlist.
Qed.

(** [run_list_columns_quiet] on one selected row. *)
Lemma run_list_columns_quiet_witness :
  run builtin_methods plural_demo (fun _ _ => [row0]) percent_demo
    opts_quiet_list 0
  = ([], Some UnboundLocalError).
Proof.
  apply (run_list_columns_quiet builtin_methods plural_demo
           (fun _ _ => [row0]) percent_demo opts_quiet_list);
    [reflexivity | reflexivity | discriminate | reflexivity].
Defined.

(** C10 as stated fails when [--count] is given as well: [run] prints the
    count on line 255 and returns on line 256, without any error. *)
Lemma run_list_columns_quiet_counterexample :
  o_list_columns opts_count_list = true
  /\ run builtin_methods plural_demo (fun _ _ => [row0]) percent_demo
       opts_count_list 0
     = ([PrintCount "1 row"], None).
Proof. split; reflexivity. Qed.

(** [fmax_spec] at rows with two constraints, with one masked constraint
    and with [constraints = None]. *)
Lemma fmax_spec_witness :
  (exists x, Formatter.fmax opts0 (with_constraints (Some [indexed; masked]))
             = Ok (VFloat x) /\ max_magnitude demo_forces x)
  /\ (exists x, Formatter.fmax opts0 (with_constraints (Some [masked]))
                = Ok (VFloat x) /\ max_magnitude [(0, 0, 1)%Q] x)
  /\ Formatter.fmax opts0 (with_constraints None) = Raise TypeError.
Proof.
  split; [|split].
  - apply (proj1 (fmax_spec opts0 (with_constraints (Some [indexed; masked]))
                    demo_forces eq_refl) indexed [masked]);
      [reflexivity | discriminate | reflexivity | discriminate].
  - apply (proj1 (proj2 (fmax_spec opts0 (with_constraints (Some [masked]))
                           demo_forces eq_refl)) masked [true; false]);
      [reflexivity | reflexivity | reflexivity | discriminate].
  - apply (proj2 (proj2 (fmax_spec opts0 (with_constraints None)
                           demo_forces eq_refl))). reflexivity.
Defined.

(** C1 as stated fails twice.  With two constraints, the first one masked,
    line 116 overwrites the forces of line 113: [fmax] is [sqrt 1], over
    the free atom only, where the unmasked forces give [sqrt 25].  With
    [constraints = None] and no forces, line 111 raises [AttributeError],
    which [format] catches: the cell is empty and nothing propagates. *)
Lemma fmax_counterexample :
  (d_constraints row0 = Some (Some [masked; indexed])
   /\ d_forces row0 = Some demo_forces
   /\ Formatter.fmax opts0 row0 = Ok (VFloat (FSqrt 1))
   /\ Formatter.max_norm demo_forces = Ok (VFloat (FSqrt 25))
   /\ ~ (1 == 25)%Q)
  /\ (d_constraints row_free = Some None
      /\ Formatter.fmax opts0 row_free = Raise AttributeError
      /\ cell_step opts0 row_free 0 Formatter.fmax ([], [0], [1])
         = Ok ([EmptyString], [0], [1])).
Proof. repeat split. intros H. discriminate H. Qed.

(** The whole of [format] on five rows, sorted and deduplicated. *)
Example format_uniq_example :
  format
    {| sort := Some "user"%string; columns := ["user"]%string;
       funcs := [Formatter.user] |}
    [row0; row_free; row0; row_free; row_free]
    {| o_count := false; o_list_columns := false; o_columns := None;
       o_include_all := false; o_sort := Some "user"%string; o_uniq := true;
       o_extract := None; o_limit := 0; o_wiki_table := false;
       o_cut := Some 30 |}
  = Ok (["user |repeat"; "alice|     3"; "bob  |     2"]%string,
        ([1; 2; 1; 2; 2], ["user"; "repeat"]%string)).
Proof. reflexivity. Qed.

(** * Further properties *)

(** ** [cut] beyond the claims *)

Lemma length_take_min (n : nat) (s : string) :
  String.length (Py.take n s) = Nat.min n (String.length s).
Proof.
  revert s; induction n as [|n IH]; intros [|c s]; simpl; auto.
Qed.

Lemma cut_fits (txt : string) (N : Z) :
  Py.len txt <= N -> cut txt (Some N) = txt.
Proof.
  intros H. unfold cut. destruct (N =? 0); [reflexivity|].
  destruct (Z.leb_spec (Py.len txt) N); [reflexivity | lia].
Qed.

Lemma cut_truncates (txt : string) (N : Z) :
  N <> 0 -> N < Py.len txt ->
  cut txt (Some N) = (Py.slice_to txt (N - 3) ++ "...")%string.
Proof.
  intros H0 H. unfold cut. destruct (Z.eqb_spec N 0); [lia|].
  destruct (Z.leb_spec (Py.len txt) N); [lia | reflexivity].
Qed.

Lemma len_slice_to (txt : string) (k : Z) :
  Py.len (Py.slice_to txt k)
  = if k <? 0 then Z.max 0 (Py.len txt + k) else Z.min k (Py.len txt).
Proof.
  unfold Py.slice_to, Py.len. destruct (Z.ltb_spec k 0);
    rewrite length_take_min; lia.
Qed.

Lemma cut_len_le (txt : string) (N : Z) :
  3 <= N -> Py.len (cut txt (Some N)) <= N.
Proof.
  intros HN. destruct (Z.le_gt_cases (Py.len txt) N) as [Hle|Hgt].
  - now rewrite (cut_fits _ _ Hle).
  - rewrite cut_truncates, len_append, len_slice_to by lia.
    destruct (Z.ltb_spec (N - 3) 0); [lia|].
    change (Py.len "...") with 3. lia.
Qed.

(** X1.  For a length [N >= 3], [cut] never returns more than [N] bytes,
    never lengthens its argument, and cutting twice is cutting once. *)
Theorem cut_bounded_idempotent (txt : string) (N : Z) :
  3 <= N ->
  Py.len (cut txt (Some N)) <= N
  /\ Py.len (cut txt (Some N)) <= Py.len txt
  /\ cut (cut txt (Some N)) (Some N) = cut txt (Some N).
Proof.
  intros HN. destruct (Z.le_gt_cases (Py.len txt) N) as [Hle|Hgt].
  - rewrite (cut_fits _ _ Hle). repeat split; try lia. now apply cut_fits.
  - assert (Hlen : Py.len (cut txt (Some N)) = N).
    { rewrite cut_truncates, len_append, len_slice_to by lia.
      destruct (Z.ltb_spec (N - 3) 0); [lia|].
      change (Py.len "...") with 3. lia. }
    repeat split; try lia. apply cut_fits. lia.
Qed.

Lemma cut_bounded_idempotent_witness :
  Py.len (cut "abcdefgh" (Some 5)) <= 5.
Proof. apply (cut_bounded_idempotent "abcdefgh" 5). lia. Defined.

(** X2.  For a length of 1 or 2, a string longer than that is not
    shortened: [cut] drops its last [3 - N] bytes and appends three dots,
    which makes it [N] bytes longer. *)
Theorem cut_tiny_lengthens (txt : string) (N : Z) :
  0 < N < 3 -> N < Py.len txt ->
  cut txt (Some N)
  = (Py.take (Z.to_nat (Py.len txt - (3 - N))) txt ++ "...")%string
  /\ Py.len (cut txt (Some N)) = Py.len txt + N.
Proof.
  intros HN Hlen.
  assert (Heq : cut txt (Some N)
                = (Py.take (Z.to_nat (Py.len txt - (3 - N))) txt ++ "...")%string).
  { rewrite cut_truncates by lia. unfold Py.slice_to.
    destruct (Z.ltb_spec (N - 3) 0); [|lia].
    do 3 f_equal. lia. }
  split; [exact Heq|].
  rewrite cut_truncates, len_append, len_slice_to by lia.
  destruct (Z.ltb_spec (N - 3) 0); [|lia]. change (Py.len "...") with 3. lia.
Qed.

Lemma cut_tiny_lengthens_witness :
  cut "abcd" (Some 2) = "abc..."%string /\ Py.len (cut "abcd" (Some 2)) = 6.
Proof.
  apply (cut_tiny_lengthens "abcd" 2); [lia | vm_compute; reflexivity].
Defined.

(** ** Column specifications beyond the claims *)

Lemma init_columns_unfold (cols : string) :
  cols <> EmptyString ->
  init_columns (Some cols) = column_tokens (spec_tokens cols) (spec_start cols).
Proof.
  destruct cols as [|c0 rest]; [congruence|]. intros _.
  cbn [init_columns spec_start].
  destruct (Ascii.eqb_spec c0 "+") as [->|Hplus].
  - reflexivity.
  - assert (Htok : spec_tokens (String c0 rest) = Py.split "," (String c0 rest)).
    { unfold spec_tokens.
      destruct c0 as [[] [] [] [] [] [] [] []]; try reflexivity. congruence. }
    rewrite Htok. cbn [orb].
    destruct (Ascii.eqb c0 "-"); reflexivity.
Qed.

(** X3.  A specification without a leading sign whose tokens are all
    non-empty and unsigned replaces the default list: the columns are
    exactly the tokens, in order, duplicates kept. *)
Theorem init_columns_replace (c0 : ascii) (rest : string) :
  c0 <> "+"%char -> c0 <> "-"%char ->
  forallb plain_token (Py.split "," (String c0 rest)) = true ->
  init_columns (Some (String c0 rest))
  = Ok (map (Py.lstrip "+") (Py.split "," (String c0 rest))).
Proof.
  intros Hplus Hminus Htoks. cbn [init_columns].
  destruct (Ascii.eqb_spec c0 "+"); [congruence|].
  destruct (Ascii.eqb_spec c0 "-"); [congruence|]. cbn [negb].
  now rewrite column_tokens_plain.
Qed.

Lemma init_columns_replace_witness :
  init_columns (Some "user,id,user"%string) = Ok ["user"; "id"; "user"]%string.
Proof.
  apply (init_columns_replace "u" "ser,id,user"); [discriminate .. | reflexivity].
Defined.

(** X4.  An empty token - a doubled or trailing comma, or a lone sign - is
    fatal: once the tokens before it have resolved, resolution raises
    [IndexError]. *)
Theorem init_columns_empty_token (cols : string) (pre post L : list string) :
  cols <> EmptyString ->
  spec_tokens cols = pre ++ EmptyString :: post ->
  column_tokens pre (spec_start cols) = Ok L ->
  init_columns (Some cols) = Raise IndexError.
Proof.
  intros Hne Htok Hpre.
  rewrite init_columns_unfold, Htok, column_tokens_app, Hpre by exact Hne.
  reflexivity.
Qed.

Lemma init_columns_empty_token_witness :
  init_columns (Some "+x,"%string) = Raise IndexError.
Proof.
  apply (init_columns_empty_token "+x," ["x"%string] []
           (default_columns ++ ["x"%string]));
    [discriminate | reflexivity | reflexivity].
Defined.

(** ** Accessors beyond the claims *)

Lemma count_true_bounds (m : list bool) :
  0 <= Np.count_true m <= Z.of_nat (length m).
Proof.
  unfold Np.count_true. pose proof (filter_length_le (fun b : bool => b) m).
  lia.
Qed.

(** X6.  [fixed] on a row whose [constraints] attribute is present: the
    empty string for [None], ['?'] for more than one entry; for a single
    entry the number of [True] flags of its mask (between 0 and the length
    of the mask), or else the number of its indices; [IndexError] for an
    empty list and [KeyError] for an entry with neither mask nor indices. *)
Theorem fixed_spec (opts : Opts) (d : Row) (c : option (list constraint)) :
  d_constraints d = Some c ->
  match c with
  | None => Formatter.fixed opts d = Ok (VStr "")
  | Some [] => Formatter.fixed opts d = Raise IndexError
  | Some [c0] =>
      match mask c0, indices c0 with
      | Some m, _ =>
          Formatter.fixed opts d = Ok (VInt (Np.count_true m))
          /\ 0 <= Np.count_true m <= Z.of_nat (length m)
      | None, Some ix =>
          Formatter.fixed opts d = Ok (VInt (Z.of_nat (length ix)))
      | None, None => Formatter.fixed opts d = Raise KeyError
      end
  | Some (_ :: _ :: _) => Formatter.fixed opts d = Ok (VStr "?")
  end.
Proof.
  intros Hc. unfold Formatter.fixed. rewrite Hc. cbn [getattr bind].
  destruct c as [[|c0 [|c1 cs]]|]; try reflexivity.
  - cbn [length Z.of_nat]. change (1 <? Z.of_nat 1) with false. cbn iota.
    cbn [Formatter.first_constraint bind].
    destruct (mask c0) as [m|]; [split; [reflexivity | apply count_true_bounds]|].
    destruct (indices c0); reflexivity.
  - replace (1 <? Z.of_nat (length (c0 :: c1 :: cs))) with true; [reflexivity|].
    symmetry. apply Z.ltb_lt. cbn [length]. lia.
Qed.

Lemma fixed_spec_witness :
  Formatter.fixed opts0 (with_constraints (Some [masked])) = Ok (VInt 1).
Proof.
  apply (fixed_spec opts0 (with_constraints (Some [masked])) (Some [masked])
           eq_refl).
Defined.

(** X7.  Errors of [fmax] when forces are present.  An empty constraint
    list raises [IndexError], in [fmax] as in [fixed].  When the first
    constraint has a mask, [fixed] returns a value, but [fmax] raises
    [IndexError] if the mask is not as long as the forces and [ValueError]
    if it leaves no atom free.  None of these is an [AttributeError], so
    [cell_step] lets each one through. *)
Theorem fmax_errors (opts : Opts) (d : Row) (forces : list vec3) :
  d_forces d = Some forces ->
  (d_constraints d = Some (Some []) ->
   Formatter.fmax opts d = Raise IndexError
   /\ Formatter.fixed opts d = Raise IndexError)
  /\ (forall c0 rest m,
        d_constraints d = Some (Some (c0 :: rest)) -> mask c0 = Some m ->
        (exists v, Formatter.fixed opts d = Ok v)
        /\ (length m <> length forces ->
            Formatter.fmax opts d = Raise IndexError)
        /\ (length m = length forces -> unmasked_atoms forces m = [] ->
            Formatter.fmax opts d = Raise ValueError))
  /\ (forall e i st,
        Formatter.fmax opts d = Raise e -> e <> AttributeError ->
        cell_step opts d i Formatter.fmax st = Raise e).
Proof.
  intros Hf. split; [|split].
  - intros Hc. unfold Formatter.fmax, Formatter.fixed. rewrite Hc.
    split; reflexivity.
  - intros c0 rest m Hc Hm. split; [|split].
    + unfold Formatter.fixed. rewrite Hc. cbn [getattr bind].
      destruct (1 <? _); [eexists; reflexivity|].
      cbn [Formatter.first_constraint bind]. rewrite Hm. eexists; reflexivity.
    + intros Hlen. unfold Formatter.fmax. rewrite Hc, Hf.
      cbn [getattr bind Formatter.len_constraints].
      destruct (1 <? _); cbn [bind Formatter.first_constraint]; rewrite Hm;
        cbn [bind]; unfold Np.bool_index, Np.invert; rewrite length_map;
        (destruct (Nat.eqb_spec (length forces) (length m)); [congruence|]);
        reflexivity.
    + intros Hlen Hnone. unfold Formatter.fmax. rewrite Hc, Hf.
      cbn [getattr bind Formatter.len_constraints].
      destruct (1 <? _); cbn [bind Formatter.first_constraint]; rewrite Hm;
        cbn [bind]; rewrite (bool_index_invert _ _ Hlen), Hnone; reflexivity.
  - intros e i [[row widths] signs] He Hne. unfold cell_step. rewrite He.
    destruct e; congruence.
Qed.

Lemma fmax_errors_witness :
  (exists v, Formatter.fixed opts0
               (with_constraints
                  (Some [{| mask := Some [true]; indices := None |}])) = Ok v)
  /\ Formatter.fmax opts0
       (with_constraints (Some [{| mask := Some [true]; indices := None |}]))
     = Raise IndexError.
Proof.
  destruct (proj1 (proj2
              (fmax_errors opts0
                 (with_constraints
                    (Some [{| mask := Some [true]; indices := None |}]))
                 demo_forces eq_refl))
              {| mask := Some [true]; indices := None |} [] [true]
              eq_refl eq_refl) as (Hfixed & Hlen & _).
  split; [exact Hfixed|]. apply Hlen. discriminate.
Defined.

(** X8.  [pbc] prints three flags, each ['0'] or ['1'], as a string; and
    [size] is the empty string exactly on the rows for which [pbc] prints
    ['000']. *)
Theorem pbc_size (opts : Opts) (d : Row) (p : bool * bool * bool) :
  d_pbc d = Some p ->
  (exists s, Formatter.pbc opts d = Ok (VStr s) /\ Py.len s = 3
             /\ all_digits s = true)
  /\ (Formatter.size opts d = Ok (VStr "")
      <-> Formatter.pbc opts d = Ok (VStr "000")).
Proof.
  intros Hp. unfold Formatter.pbc, Formatter.size. rewrite Hp.
  cbn [getattr bind]. destruct p as [[a b] c]. split.
  - eexists. split; [reflexivity|]. destruct a, b, c; split; reflexivity.
  - destruct a, b, c; cbn; try (split; reflexivity);
      destruct (d_cell d) as [[[x y] z]|]; cbn; split; discriminate.
Qed.

Lemma pbc_size_witness :
  Formatter.size opts0 row_free = Ok (VStr "")
  <-> Formatter.pbc opts0 row_free = Ok (VStr "000").
Proof.
  apply (proj2 (pbc_size opts0 row_free (false, false, false) eq_refl)).
Defined.

(** X9.  The [keyvals] cell is a string of at most 40 bytes, whatever
    [--cut] says, and every value in it was first cut to at most 8 bytes;
    without the [key_value_pairs] attribute it raises [AttributeError]. *)
Theorem keyvals_bounded (opts : Opts) (d : Row) :
  (forall kv, d_key_value_pairs d = Some kv ->
     exists s, Formatter.keyvals opts d = Ok (VStr s) /\ Py.len s <= 40
       /\ s = cut (Py.join ","
                     (map (fun p => (fst p ++ "=" ++ cut (snd p) (Some 8))%string)
                        kv)) (Some 40)
       /\ Forall (fun p => Py.len (cut (snd p) (Some 8)) <= 8) kv)
  /\ (d_key_value_pairs d = None ->
      Formatter.keyvals opts d = Raise AttributeError).
Proof.
  split.
  - intros kv Hkv. unfold Formatter.keyvals. rewrite Hkv. cbn [getattr bind].
    eexists. split; [reflexivity|]. split; [|split; [reflexivity|]].
    + apply cut_len_le. lia.
    + apply Forall_forall. intros p _. apply cut_len_le. lia.
  - intros Hkv. unfold Formatter.keyvals. now rewrite Hkv.
Qed.

Lemma keyvals_bounded_witness :
  exists s, Formatter.keyvals opts0 row_kv = Ok (VStr s) /\ Py.len s <= 40.
Proof.
  destruct (proj1 (keyvals_bounded opts0 row_kv) _ eq_refl)
    as (s & Hs & Hlen & _).
  exists s. split; assumption.
Defined.

(** ** [format] beyond the claims *)

Section Loops.

Variable opts : Opts.

Lemma cell_loop_fatal_free (dct : Row) (fs : list accessor) (i : nat)
    (row : list string) (widths signs : list Z) st :
  (i + length fs <= length widths)%nat ->
  (i + length fs <= length signs)%nat ->
  cell_loop opts dct fs i (row, widths, signs) = Ok st ->
  forall f, In f fs -> fatal opts dct f = None.
Proof.
  revert i row widths signs; induction fs as [|f fs IH];
    intros i row widths signs Hw Hs H g Hg; cbn [cell_loop length] in *;
    [destruct Hg|].
  destruct (fatal opts dct f) as [e|] eqn:He.
  { now rewrite (cell_step_fatal _ _ _ _ _ _ He) in H. }
  destruct Hg as [<-|Hg]; [exact He|].
  destruct (lookup_lt_is_Some_2 widths i ltac:(lia)) as [w Hwi].
  destruct (lookup_lt_is_Some_2 signs i ltac:(lia)) as [sg Hsi].
  rewrite (cell_step_spec _ _ _ _ _ _ _ _ _ Hwi Hsi He) in H. cbn [bind] in H.
  eapply IH; [| |exact H|exact Hg]; rewrite length_insert; lia.
Qed.

Lemma cell_loop_ok (dct : Row) (fs : list accessor) (i : nat)
    (row : list string) (widths signs : list Z) :
  (i + length fs <= length widths)%nat ->
  (i + length fs <= length signs)%nat ->
  (forall f, In f fs -> fatal opts dct f = None) ->
  cell_loop opts dct fs i (row, widths, signs)
  = Ok (row ++ map (cell_str opts dct) fs,
        update_from (cell_width opts dct) fs i widths,
        update_from (cell_sign opts dct) fs i signs).
Proof.
  revert i row widths signs; induction fs as [|f fs IH];
    intros i row widths signs Hw Hs Hok; cbn [cell_loop length map] in *.
  - now rewrite app_nil_r.
  - destruct (lookup_lt_is_Some_2 widths i ltac:(lia)) as [w Hwi].
    destruct (lookup_lt_is_Some_2 signs i ltac:(lia)) as [sg Hsi].
    rewrite (cell_step_spec _ _ _ _ _ _ _ _ _ Hwi Hsi (Hok f (or_introl eq_refl))).
    cbn [bind]. rewrite IH; [| rewrite length_insert; lia ..
                             | intros g Hg; apply Hok; now right].
    cbn [update_from]. rewrite Hwi, Hsi, <- app_assoc. reflexivity.
Qed.

Lemma row_loop_renders (fs : list accessor) (dcts : list Row)
    (table : list (list string)) (widths signs ids : list Z) st :
  (length fs <= length widths)%nat ->
  (length fs <= length signs)%nat ->
  row_loop opts fs dcts (table, widths, signs, ids) = Ok st ->
  forall dct, In dct dcts -> renders opts fs dct.
Proof.
  revert table widths signs ids; induction dcts as [|d dcts IH];
    intros table widths signs ids Hw Hs H dct Hin; [destruct Hin|].
  cbn [row_loop] in H.
  destruct (cell_loop opts d fs 0 ([], widths, signs)) as [st1|e] eqn:E;
    [|discriminate].
  pose proof (cell_loop_fatal_free d fs 0 [] widths signs st1
                ltac:(simpl; lia) ltac:(simpl; lia) E) as Hfree.
  apply cell_loop_inv in E; [|simpl; lia ..]. subst st1. cbn [bind] in H.
  destruct (d_id d) as [i|] eqn:Ei; [|discriminate]. cbn [getattr bind] in H.
  destruct Hin as [<-|Hin].
  - split; [exact Hfree | congruence].
  - eapply IH; [| |exact H|exact Hin]; rewrite update_from_length; lia.
Qed.

Lemma row_loop_ok (fs : list accessor) (dcts : list Row)
    (table : list (list string)) (widths signs ids : list Z) :
  (length fs <= length widths)%nat ->
  (length fs <= length signs)%nat ->
  (forall dct, In dct dcts -> renders opts fs dct) ->
  exists ids',
    row_loop opts fs dcts (table, widths, signs, ids)
    = Ok (table ++ cells opts fs dcts,
          update_rows (cell_width opts) fs dcts widths,
          update_rows (cell_sign opts) fs dcts signs,
          ids ++ ids')
    /\ map d_id dcts = map Some ids'.
Proof.
  revert table widths signs ids; induction dcts as [|d dcts IH];
    intros table widths signs ids Hw Hs Hok.
  - exists []. cbn. now rewrite !app_nil_r.
  - destruct (Hok d (or_introl eq_refl)) as [Hfree Hid].
    destruct (d_id d) as [i|] eqn:Ei; [|congruence].
    destruct (IH (table ++ [map (cell_str opts d) fs])
                (update_from (cell_width opts d) fs 0 widths)
                (update_from (cell_sign opts d) fs 0 signs)
                (ids ++ [i])) as (ids' & Hloop & Hids);
      [rewrite update_from_length; lia .. | intros d' Hd'; apply Hok; now right|].
    exists (i :: ids'). cbn [row_loop].
    rewrite (cell_loop_ok d fs 0 [] widths signs
               ltac:(simpl; lia) ltac:(simpl; lia) Hfree). cbn [bind app].
    rewrite Ei. cbn [getattr bind]. rewrite Hloop.
    unfold cells. cbn [map update_rows]. rewrite Ei, Hids, <- !app_assoc.
    split; reflexivity.
Qed.

End Loops.

(** *** Sorting *)

Lemma list_index_in (s : string) (l : list string) :
  In s l ->
  exists n, Py.list_index s l = Ok n /\ l !! n = Some s.
Proof.
  induction l as [|y l IH]; [intros []|]. intros Hin. cbn [Py.list_index].
  destruct (String.eqb_spec y s) as [->|Hne].
  - exists 0%nat. split; reflexivity.
  - destruct Hin as [->|Hin]; [congruence|].
    destruct (IH Hin) as (n & -> & Hn). exists (S n). split; [reflexivity|exact Hn].
Qed.

Lemma list_index_absent (s : string) (l : list string) :
  ~ In s l -> Py.list_index s l = Raise ValueError.
Proof.
  induction l as [|y l IH]; [reflexivity|]. intros Hin. cbn [Py.list_index].
  destruct (String.eqb_spec y s) as [->|Hne]; [exfalso; apply Hin; now left|].
  rewrite IH; [reflexivity|]. intros H. apply Hin. now right.
Qed.

Lemma list_index_app (s : string) (l l' : list string) :
  In s l -> Py.list_index s (l ++ l') = Py.list_index s l.
Proof.
  induction l as [|y l IH]; [intros []|]. intros Hin. cbn [app Py.list_index].
  destruct (String.eqb_spec y s) as [->|Hne]; [reflexivity|].
  destruct Hin as [->|Hin]; [congruence|]. now rewrite IH.
Qed.

Lemma sort_keys_ok (n : nat) (rows : list (list string)) :
  (forall row, In row rows -> (n < length row)%nat) ->
  sort_keys n rows = Ok (keyed n rows).
Proof.
  induction rows as [|row rows IH]; intros H; [reflexivity|].
  cbn [sort_keys]. unfold get_item, sort_key.
  destruct (lookup_lt_is_Some_2 row n (H row (or_introl eq_refl))) as [k Hk].
  rewrite Hk. cbn [bind]. rewrite IH by (intros r Hr; apply H; now right).
  cbn [bind keyed map]. unfold sort_key. now rewrite Hk.
Qed.

Lemma sort_keys_keyed (n : nat) (rows : list (list string)) ks :
  sort_keys n rows = Ok ks ->
  ks = keyed n rows /\ forall row, In row rows -> (n < length row)%nat.
Proof.
  revert ks; induction rows as [|row rows IH]; intros ks; cbn [sort_keys].
  - intros [= <-]. split; [reflexivity | intros ? []].
  - unfold get_item. destruct (row !! n) as [k|] eqn:Hk; [|discriminate].
    cbn [bind]. destruct (sort_keys n rows) as [ks'|]; [|discriminate].
    cbn [bind]. intros [= <-]. destruct (IH ks' eq_refl) as [-> Hlen].
    split.
    + cbn [keyed map]. unfold sort_key. now rewrite Hk.
    + intros r [<-|Hr]; [eapply lookup_lt_Some; eauto | auto].
Qed.

Lemma insert_by_key_sorted x l :
  Sorted fst_le l -> Sorted fst_le (insert_by_key x l).
Proof.
  induction l as [|y l IH]; intros Hs; cbn [insert_by_key].
  - repeat constructor.
  - destruct (String.leb (fst x) (fst y)) eqn:E.
    + constructor; [exact Hs | constructor; exact E].
    + inversion Hs as [|? ? Hl Hhd]; subst.
      constructor; [now apply IH|].
      assert (Hyx : fst_le y x).
      { destruct (String.leb_total (fst x) (fst y)); [congruence | assumption]. }
      destruct l as [|z l]; cbn [insert_by_key].
      * now constructor.
      * destruct (String.leb (fst x) (fst z)); constructor; auto.
        now inversion Hhd.
Qed.

Lemma stable_sort_sorted l : Sorted fst_le (stable_sort l).
Proof.
  induction l as [|x l IH]; cbn; [constructor | now apply insert_by_key_sorted].
Qed.

Lemma leb_refl (s : string) : String.leb s s = true.
Proof. destruct (String.leb_total s s); assumption. Qed.

Lemma insert_by_key_filter (k : string) x l :
  List.filter (fun p => String.eqb (fst p) k) (insert_by_key x l)
  = List.filter (fun p => String.eqb (fst p) k) (x :: l).
Proof.
  induction l as [|y l IH]; cbn [insert_by_key]; [reflexivity|].
  destruct (String.leb (fst x) (fst y)) eqn:E; [reflexivity|].
  cbn [List.filter] in *. rewrite IH.
  destruct (String.eqb_spec (fst x) k) as [Hx|Hx];
    destruct (String.eqb_spec (fst y) k) as [Hy|Hy]; try reflexivity.
  rewrite Hx, Hy, leb_refl in E. discriminate.
Qed.

Lemma stable_sort_filter (k : string) l :
  List.filter (fun p => String.eqb (fst p) k) (stable_sort l)
  = List.filter (fun p => String.eqb (fst p) k) l.
Proof.
  induction l as [|x l IH]; [reflexivity|]. cbn [stable_sort fold_right].
  fold (stable_sort l). rewrite insert_by_key_filter. cbn [List.filter].
  now rewrite IH.
Qed.

Lemma keyed_fst (n : nat) (rows : list (list string)) l :
  Permutation l (keyed n rows) ->
  Forall (fun p => fst p = sort_key n (snd p)) l.
Proof.
  intros H. apply Forall_forall. intros p Hp.
  apply list_elem_of_In in Hp.
  apply (Permutation_in _ H) in Hp. unfold keyed in Hp.
  apply in_map_iff in Hp as (r & <- & _). reflexivity.
Qed.

Lemma sorted_map_snd (n : nat) l :
  Forall (fun p => fst p = sort_key n (snd p)) l ->
  Sorted fst_le l -> Sorted (key_le n) (map snd l).
Proof.
  induction l as [|x l IH]; intros Hf Hs; [constructor|].
  inversion Hf as [|? ? Hx Hl]; subst. inversion Hs as [|? ? Hs' Hhd]; subst.
  cbn [map]. constructor; [now apply IH|].
  destruct l as [|y l]; [constructor|]. cbn [map]. constructor.
  inversion Hhd as [|? ? Hxy]; subst. inversion Hl as [|? ? Hy _]; subst.
  unfold key_le, fst_le in *. now rewrite <- Hx, <- Hy.
Qed.

Lemma filter_map_snd (n : nat) (k : string) l :
  Forall (fun p => fst p = sort_key n (snd p)) l ->
  with_key n k (map snd l)
  = map snd (List.filter (fun p => String.eqb (fst p) k) l).
Proof.
  unfold with_key. induction l as [|x l IH]; intros Hf; [reflexivity|].
  inversion Hf as [|? ? Hx Hl]; subst. cbn [map List.filter].
  rewrite <- Hx. destruct (String.eqb (fst x) k); cbn [map]; now rewrite IH.
Qed.

(** X10.  With a sort column, [sort_stage] keeps the header first and
    returns the data rows sorted by the byte-wise order of that column's
    strings: nothing is lost or added, and rows with equal keys keep their
    order. *)
Theorem sort_stage_sorted (self_columns : list string) (s : string)
    (header : list string) (rows table : list (list string)) :
  s <> EmptyString ->
  sort_stage self_columns (Some s) (header :: rows) = Ok table ->
  exists n rows',
    Py.list_index s self_columns = Ok n
    /\ table = header :: rows'
    /\ Permutation rows' rows
    /\ Sorted (key_le n) rows'
    /\ forall k, with_key n k rows' = with_key n k rows.
Proof.
  intros Hs H. unfold sort_stage in H.
  destruct s as [|c s]; [congruence|].
  destruct (Py.list_index _ _) as [n|]; [|discriminate]. cbn [bind] in H.
  destruct (sort_keys n rows) as [ks|] eqn:E; [|discriminate]. cbn [bind] in H.
  injection H as <-. destruct (sort_keys_keyed _ _ _ E) as [-> _].
  exists n, (map snd (stable_sort (keyed n rows))).
  pose proof (keyed_fst n rows _ (stable_sort_perm (keyed n rows))) as Hfst.
  assert (Hsnd : map snd (keyed n rows) = rows).
  { unfold keyed. rewrite map_map. cbn. apply map_id. }
  repeat split.
  - rewrite <- Hsnd at 2. apply Permutation_map, stable_sort_perm.
  - apply sorted_map_snd; [exact Hfst | apply stable_sort_sorted].
  - intros k. rewrite (filter_map_snd n k _ Hfst), stable_sort_filter.
    rewrite <- (filter_map_snd n k (keyed n rows)), Hsnd; [reflexivity|].
    apply (keyed_fst n rows). reflexivity.
Qed.

Lemma sort_stage_sorted_witness :
  sort_stage ["id"; "user"]%string (Some "user"%string)
    [["id"; "user"]; ["1"; "bob"]; ["2"; "alice"]; ["3"; "bob"]]%string
  = Ok [["id"; "user"]; ["2"; "alice"]; ["1"; "bob"]; ["3"; "bob"]]%string
  /\ exists n rows',
       Py.list_index "user" ["id"; "user"]%string = Ok n
       /\ Sorted (key_le n) rows'.
Proof.
  split; [reflexivity|].
  destruct (sort_stage_sorted ["id"; "user"]%string "user"
              ["id"; "user"]%string
              [["1"; "bob"]; ["2"; "alice"]; ["3"; "bob"]]%string _
              ltac:(discriminate) eq_refl)
    as (n & rows' & Hn & _ & _ & Hsorted & _).
  exists n, rows'. split; assumption.
Defined.

(** *** The stages of [format] *)

Lemma self_columns_length (self : Formatter) (opts : Opts) :
  length (header self opts) = length (self_columns self opts).
Proof.
  unfold header. destruct (o_wiki_table opts); [apply length_map | reflexivity].
Qed.

(** What a successful [format_layout] went through. *)
Lemma format_layout_stages (self : Formatter) (dcts : list Row) (opts : Opts)
    (L : layout) :
  length (funcs self) = length (columns self) ->
  format_layout self dcts opts = Ok L ->
  exists rows2,
    (forall dct, In dct dcts -> renders opts (funcs self) dct)
    /\ map d_id dcts = map Some (l_ids L)
    /\ sort_stage (self_columns self opts) (sort self)
         (header self opts :: cells opts (funcs self) dcts)
       = Ok (header self opts :: rows2)
    /\ Permutation rows2 (cells opts (funcs self) dcts)
    /\ (if o_uniq opts
        then exists r0 rest,
               rows2 = r0 :: rest
               /\ l_table L
                  = map TStr (header self opts) :: counted (runs r0 1 rest)
        else l_table L = map (map TStr) (header self opts :: rows2)).
Proof.
  intros Hinit H. unfold format_layout in H.
  pose proof (header_length self opts) as Hn. rewrite <- Hinit in Hn.
  assert (Hle : (length (funcs self) <= length (header self opts))%nat)
    by (destruct (o_uniq opts); lia).
  destruct (row_loop _ _ _ _) as [st|] eqn:E1; [|discriminate].
  assert (Hb0 : (length (funcs self)
                 <= length (map (fun _ : string => 0%Z) (header self opts)))%nat)
    by (rewrite length_map; exact Hle).
  assert (Hb1 : (length (funcs self)
                 <= length (map (fun _ : string => 1%Z) (header self opts)))%nat)
    by (rewrite length_map; exact Hle).
  pose proof (row_loop_renders _ _ _ _ _ _ _ _ Hb0 Hb1 E1) as Hrend.
  apply row_loop_inv in E1 as (ids' & -> & Hids);
    [|rewrite length_map; exact Hle ..].
  cbn [bind app] in H. fold (cells opts (funcs self) dcts) in H.
  destruct (sort_stage _ _ _) as [table2|] eqn:E2; [|discriminate].
  destruct (sort_stage_inv _ _ _ _ _ E2) as (rows2 & -> & Hperm).
  cbn [bind] in H. exists rows2.
  split; [exact Hrend|].
  destruct (o_uniq opts) eqn:Eu.
  - unfold uniq_stage in H. destruct rows2 as [|r0 rest]; [discriminate|].
    destruct (split_last (update_rows (cell_width opts) (funcs self) dcts
                            (map (fun _ => 0) (header self opts))))
      as (init & w0 & Hsplit).
    { intros E. apply (f_equal (@length Z)) in E.
      rewrite update_rows_length, length_map in E. simpl in E. lia. }
    rewrite Hsplit, uniq_loop_spec in H. cbn [bind] in H.
    injection H as <-. cbn [l_ids l_table].
    repeat split; auto. exists r0, rest. split; reflexivity.
  - injection H as <-. cbn [l_ids l_table]. repeat split; auto.
Qed.

Lemma sort_stage_ok (self_columns : list string) (srt : option string)
    (header : list string) (rows : list (list string)) (width : nat) :
  (forall row, In row rows -> length row = width) ->
  (forall s, srt = Some s -> s <> EmptyString ->
     exists n, Py.list_index s self_columns = Ok n /\ (n < width)%nat) ->
  exists rows',
    sort_stage self_columns srt (header :: rows) = Ok (header :: rows')
    /\ Permutation rows' rows.
Proof.
  intros Hrows Hsort. unfold sort_stage.
  destruct srt as [[|c s]|]; try (exists rows; split; reflexivity).
  destruct (Hsort _ eq_refl ltac:(discriminate)) as (n & -> & Hn).
  cbn [bind]. rewrite sort_keys_ok by (intros r Hr; rewrite (Hrows r Hr); exact Hn).
  cbn [bind]. eexists. split; [reflexivity|].
  assert (Hsnd : map snd (keyed n rows) = rows).
  { unfold keyed. rewrite map_map. cbn. apply map_id. }
  rewrite <- Hsnd at 2. apply Permutation_map, stable_sort_perm.
Qed.

Lemma format_inv (self : Formatter) (dcts : list Row) (opts : Opts) r :
  format self dcts opts = Ok r ->
  exists L, format_layout self dcts opts = Ok L
            /\ l_ids L = fst (snd r)
            /\ fst r = if o_list_columns opts then []
                       else map (line (o_wiki_table opts) (l_widths L) (l_signs L))
                              (l_table L).
Proof.
  unfold format. destruct (format_layout self dcts opts) as [L|]; [|discriminate].
  cbn [bind]. destruct (get_item (l_table L) 0); [|discriminate]. cbn [bind].
  intros [= <-]. exists L. repeat split.
Qed.

(** X11.  [format] returns only if every accessor, on every row, returned
    or raised [AttributeError], and every row has an [id]; only if a
    non-empty sort column is among [self.columns]; and, with [--uniq], only
    if there is a row.  So one accessor raising anything else on one row
    leaves the whole table unprinted. *)
Theorem format_needs (self : Formatter) (dcts : list Row) (opts : Opts) r :
  length (funcs self) = length (columns self) ->
  format self dcts opts = Ok r ->
  (forall dct, In dct dcts -> renders opts (funcs self) dct)
  /\ (forall s, sort self = Some s -> s <> EmptyString ->
        In s (self_columns self opts))
  /\ (o_uniq opts = true -> dcts <> []).
Proof.
  intros Hinit H. destruct (format_inv _ _ _ _ H) as (L & HL & _).
  destruct (format_layout_stages _ _ _ _ Hinit HL)
    as (rows2 & Hrend & _ & Hsort & Hperm & Htab).
  split; [exact Hrend|]. split.
  - intros s Hs Hne. rewrite Hs in Hsort.
    destruct (in_dec string_dec s (self_columns self opts)) as [|Hnot];
      [assumption|].
    unfold sort_stage in Hsort. destruct s as [|c s]; [congruence|].
    rewrite (list_index_absent _ _ Hnot) in Hsort. discriminate.
  - intros Hu. rewrite Hu in Htab. destruct Htab as (r0 & rest & -> & _).
    intros ->. apply Permutation_length in Hperm. discriminate.
Qed.

Lemma format_needs_witness :
  renders opts0 (funcs table_formatter) row0
  /\ renders opts0 (funcs table_formatter) row_free.
Proof.
  pose proof (proj1 (format_needs table_formatter [row0; row_free] opts0 _
                       eq_refl format_example)) as H.
  split; apply H; simpl; tauto.
Defined.

(** X12.  [format] returns whenever there is one function per column, no
    accessor raises anything but [AttributeError] on any row, every row has
    an [id], the sort column is absent, empty or one of the formatter's
    columns, and [--uniq] comes with at least one row. *)
Theorem format_succeeds (self : Formatter) (dcts : list Row) (opts : Opts) :
  length (funcs self) = length (columns self) ->
  (forall dct, In dct dcts -> renders opts (funcs self) dct) ->
  (forall s, sort self = Some s -> s <> EmptyString -> In s (columns self)) ->
  (o_uniq opts = true -> dcts <> []) ->
  exists out ids cols, format self dcts opts = Ok (out, (ids, cols)).
Proof.
  intros Hinit Hrend Hsort Huniq.
  pose proof (header_length self opts) as Hn. rewrite <- Hinit in Hn.
  assert (Hle : (length (funcs self) <= length (header self opts))%nat)
    by (destruct (o_uniq opts); lia).
  destruct (row_loop_ok opts (funcs self) dcts [header self opts]
              (map (fun _ => 0) (header self opts))
              (map (fun _ => 1) (header self opts)) [])
    as (ids' & Hloop & Hids); [rewrite length_map; exact Hle .. | exact Hrend |].
  destruct (sort_stage_ok (self_columns self opts) (sort self)
              (header self opts) (cells opts (funcs self) dcts)
              (length (funcs self)))
    as (rows2 & Hs2 & Hperm).
  { intros row Hrow. now apply (cells_length opts (funcs self) dcts). }
  { intros s Hs Hne. specialize (Hsort s Hs Hne).
    destruct (list_index_in s (columns self) Hsort) as (n & Hidx & Hn').
    exists n. split.
    - unfold self_columns. destruct (o_uniq opts); [|exact Hidx].
      now rewrite list_index_app.
    - apply lookup_lt_Some in Hn'. lia. }
  assert (HL : exists L, format_layout self dcts opts = Ok L
                         /\ exists hd rest, l_table L = hd :: rest).
  { unfold format_layout. rewrite Hloop. cbn [bind app].
    fold (cells opts (funcs self) dcts). rewrite Hs2. cbn [bind].
    destruct (o_uniq opts) eqn:Eu.
    - destruct rows2 as [|r0 rest].
      { apply Permutation_length in Hperm. unfold cells in Hperm.
        rewrite length_map in Hperm. destruct dcts; [|discriminate].
        now specialize (Huniq eq_refl). }
      destruct (split_last (update_rows (cell_width opts) (funcs self) dcts
                              (map (fun _ => 0) (header self opts))))
        as (init & w0 & Hsplit).
      { intros E. apply (f_equal (@length Z)) in E.
        rewrite update_rows_length, length_map in E. simpl in E. lia. }
      unfold uniq_stage. rewrite Hsplit, uniq_loop_spec. cbn [bind].
      eexists. split; [reflexivity|]. cbn [l_table app]. eauto.
    - cbn [bind]. eexists. split; [reflexivity|]. cbn [l_table map]. eauto. }
  destruct HL as (L & HL & hd & rest & Htab).
  unfold format. rewrite HL. cbn [bind]. rewrite Htab.
  cbn [get_item lookup list_lookup bind]. eauto.
Qed.

Lemma format_succeeds_witness :
  exists out ids cols,
    format table_formatter [row0; row_free] opts0 = Ok (out, (ids, cols)).
Proof.
  apply (format_succeeds table_formatter [row0; row_free] opts0 eq_refl).
  - intros dct [<-|[<-|[]]]; (split; [|discriminate]);
      intros f [<-|[<-|[<-|[<-|[]]]]]; reflexivity.
  - discriminate.
  - discriminate.
Defined.

(** *** What [format] returns *)

Lemma runs_length (first : list string) (count : Z) (rows : list (list string)) :
  (1 <= length (runs first count rows) <= S (length rows))%nat.
Proof.
  revert first count; induction rows as [|row rows IH]; intros first count;
    cbn [runs length]; [lia|].
  destruct (decide (row = first)).
  - specialize (IH first (count + 1)). lia.
  - cbn [length]. specialize (IH row 1). lia.
Qed.

(** X13.  The ids that [format] returns are those of the selected rows, in
    the order of the selection: neither [--sort] nor [--uniq] changes them,
    so under either they do not follow the lines of the table. *)
Theorem format_ids_in_selection_order (self : Formatter) (dcts : list Row)
    (opts : Opts) out ids cols :
  length (funcs self) = length (columns self) ->
  format self dcts opts = Ok (out, (ids, cols)) ->
  map d_id dcts = map Some ids /\ length ids = length dcts.
Proof.
  intros Hinit H. destruct (format_inv _ _ _ _ H) as (L & HL & Hids & _).
  cbn [fst snd] in Hids. subst ids.
  destruct (format_layout_stages _ _ _ _ Hinit HL) as (_ & _ & Hid & _).
  split; [exact Hid|].
  apply (f_equal (@length _)) in Hid. rewrite !length_map in Hid. lia.
Qed.

Lemma format_ids_in_selection_order_witness :
  map d_id [row0; row_free] = map Some [1; 2]
  /\ length [1; 2] = length [row0; row_free].
Proof.
  apply (format_ids_in_selection_order table_formatter [row0; row_free] opts0
           _ _ _ eq_refl format_example).
Defined.

(** X14.  The number of lines that [format] writes: none under
    [--list-columns]; otherwise the header and one line per row, and under
    [--uniq] the header and between one line and one line per row. *)
Theorem format_line_count (self : Formatter) (dcts : list Row) (opts : Opts)
    out ids cols :
  length (funcs self) = length (columns self) ->
  format self dcts opts = Ok (out, (ids, cols)) ->
  (o_list_columns opts = true -> out = [])
  /\ (o_list_columns opts = false -> o_uniq opts = false ->
        length out = S (length dcts))
  /\ (o_list_columns opts = false -> o_uniq opts = true ->
        (2 <= length out <= S (length dcts))%nat).
Proof.
  intros Hinit H. destruct (format_inv _ _ _ _ H) as (L & HL & _ & Hout).
  cbn [fst] in Hout.
  destruct (format_layout_stages _ _ _ _ Hinit HL)
    as (rows2 & _ & _ & _ & Hperm & Htab).
  apply Permutation_length in Hperm. unfold cells in Hperm.
  rewrite length_map in Hperm.
  split; [intros E; now rewrite E in Hout|].
  split; intros El Eu; rewrite El in Hout; rewrite Eu in Htab; subst out;
    rewrite length_map.
  - rewrite Htab, length_map. cbn [length]. lia.
  - destruct Htab as (r0 & rest & -> & ->). cbn [length] in *.
    unfold counted. rewrite length_map.
    pose proof (runs_length r0 1 rest). lia.
Qed.

Lemma format_line_count_witness :
  length ["id|user |energy|size "; " 1|bob  |-1.250|6.000";
          " 2|alice|      |     "]%string
  = S (length [row0; row_free]).
Proof.
  apply (proj1 (proj2 (format_line_count table_formatter [row0; row_free] opts0
                         _ _ _ eq_refl format_example))); reflexivity.
Defined.

(** *** The shape of the printed table *)

Lemma layout_row_lengths (self : Formatter) (dcts : list Row) (opts : Opts)
    (L : layout) :
  length (funcs self) = length (columns self) ->
  format_layout self dcts opts = Ok L ->
  forall row, In row (l_table L) -> length row = length (header self opts).
Proof.
  intros Hinit HL row Hrow.
  pose proof (header_length self opts) as Hn. rewrite <- Hinit in Hn.
  destruct (format_layout_stages _ _ _ _ Hinit HL)
    as (rows2 & _ & _ & _ & Hperm & Htab).
  assert (Hcells : forall r, In r rows2 -> length r = length (funcs self)).
  { intros r Hr. apply (cells_length opts (funcs self) dcts).
    now apply (Permutation_in _ Hperm). }
  destruct (o_uniq opts) eqn:Eu.
  - destruct Htab as (r0 & rest & -> & Htab). rewrite Htab in Hrow.
    destruct Hrow as [<-|Hrow]; [apply length_map|].
    unfold counted in Hrow. apply in_map_iff in Hrow as (g & <- & Hg).
    unfold with_count. rewrite length_app, length_map. cbn [length].
    rewrite Hcells; [lia|]. apply (runs_rows r0 1 rest). now apply in_map.
  - rewrite Htab in Hrow. cbn [map] in Hrow.
    destruct Hrow as [<-|Hrow]; [apply length_map|].
    apply in_map_iff in Hrow as (r & <- & Hr). rewrite length_map.
    rewrite (Hcells r Hr). lia.
Qed.

Lemma layout_cell_fits (self : Formatter) (dcts : list Row) (opts : Opts)
    (L : layout) :
  length (funcs self) = length (columns self) ->
  format_layout self dcts opts = Ok L ->
  forall row i c w sign,
    In row (l_table L) -> row !! i = Some c ->
    l_widths L !! i = Some w -> 0 < w -> l_signs L !! i = Some sign ->
    (sign = 1 \/ sign = -1) /\ Py.len (str c) <= w.
Proof.
  intros Hinit HL row i c w sign Hrow Hc Hwi Hpos Hsi.
  destruct (format_layout_spec _ _ _ _ Hinit HL)
    as (data & Htab & Hwl & Hsl & Hw & Hs & Hrep).
  assert (Hi : (i < length (header self opts))%nat).
  { apply lookup_lt_Some in Hwi. lia. }
  destruct (lookup_lt_is_Some_2 _ i Hi) as [col Hcol].
  rewrite (Hw i col Hcol) in Hwi. injection Hwi as Hwi.
  split.
  - pose proof (header_length self opts) as Hn. rewrite <- Hinit in Hn.
    destruct (lt_dec i (length (funcs self))) as [Hlt|Hge].
    + destruct (lookup_lt_is_Some_2 _ i Hlt) as [f Hf].
      rewrite (Hs i f Hf) in Hsi. injection Hsi as <-.
      destruct (existsb _ _); auto.
    + destruct (o_uniq opts) eqn:Eu; [|lia].
      assert (i = length (funcs self)) as -> by lia.
      rewrite (Hrep eq_refl) in Hsi. injection Hsi as <-. auto.
  - unfold final_width in Hwi. rewrite Htab in Hrow. destruct Hrow as [<-|Hrow].
    + rewrite lookup_map, Hcol in Hc. injection Hc as <-. cbn [str].
      destruct (Z.eqb_spec (longest i data) 0); lia.
    + pose proof (longest_ge i data row c Hrow Hc).
      destruct (Z.eqb_spec (longest i data) 0); lia.
Qed.

Lemma len_fmt_star_s (w sign : Z) (s : string) :
  0 < w -> Py.len s <= w -> sign = 1 \/ sign = -1 ->
  Py.len (Py.fmt_star_s (w * sign) s) = w.
Proof.
  intros Hw Hs [-> | ->].
  - destruct (fmt_star_s_right w s Hw Hs) as (n & _ & H). exact H.
  - destruct (fmt_star_s_left w s Hw Hs) as (n & _ & H). exact H.
Qed.

(** The widths of the fields of a line are the positive widths. *)
Lemma line_fields_len (widths signs : list Z) (row : list tcell) :
  length signs = length widths -> length row = length widths ->
  (forall i w sign c,
      widths !! i = Some w -> signs !! i = Some sign -> row !! i = Some c ->
      0 < w -> (sign = 1 \/ sign = -1) /\ Py.len (str c) <= w) ->
  map Py.len
    (map (fun p : Z * (Z * tcell) =>
            let '(w, (sign, s)) := p in Py.fmt_star_s (w * sign) (str s))
       (List.filter (fun p => 0 <? fst p) (combine widths (combine signs row))))
  = List.filter (fun w => 0 <? w) widths.
Proof.
  revert signs row; induction widths as [|w widths IH];
    intros [|sign signs] [|c row] Hs Hr H; try discriminate; [reflexivity|].
  cbn [combine List.filter fst].
  assert (IH' := IH signs row ltac:(simpl in Hs; lia) ltac:(simpl in Hr; lia)
                   (fun i => H (S i))).
  destruct (Z.ltb_spec 0 w) as [Hpos|Hle].
  - cbn [map]. rewrite IH'. f_equal.
    destruct (H 0%nat w sign c eq_refl eq_refl eq_refl Hpos) as [Hsg Hlen].
    now apply len_fmt_star_s.
  - exact IH'.
Qed.

Lemma len_join_ext (sep : string) (l l' : list string) :
  map Py.len l = map Py.len l' ->
  Py.len (Py.join sep l) = Py.len (Py.join sep l').
Proof.
  unfold Py.join. revert l'; induction l as [|x l IH]; intros [|y l'] H;
    try discriminate; [reflexivity|].
  cbn [map] in H. injection H as Hx Hl. specialize (IH l' Hl).
  destruct l as [|x' l], l' as [|y' l']; try discriminate.
  - exact Hx.
  - change (String.concat sep (x :: x' :: l))
      with (x ++ sep ++ String.concat sep (x' :: l))%string.
    change (String.concat sep (y :: y' :: l'))
      with (y ++ sep ++ String.concat sep (y' :: l'))%string.
    rewrite !len_append, IH, Hx. reflexivity.
Qed.

(** *** The printed lines *)

Lemma Forall2_map_in {A B : Type} (P : B -> A -> Prop) (f : A -> B)
    (l : list A) :
  (forall x, In x l -> P (f x) x) -> Forall2 P (map f l) l.
Proof.
  induction l as [|x l IH]; intros H; cbn [map]; constructor.
  - apply H. now left.
  - apply IH. intros y Hy. apply H. now right.
Qed.

Lemma Forall2_map_right {A B C : Type} (P : A -> C -> Prop) (g : B -> C)
    (l : list A) (k : list B) :
  Forall2 (fun x y => P x (g y)) l k -> Forall2 P l (map g k).
Proof.
  induction 1; cbn [map]; constructor; assumption.
Qed.

(** What [format] writes, line by line. *)
Lemma format_out (self : Formatter) (dcts : list Row) (opts : Opts)
    (L : layout) out ids cols :
  format_layout self dcts opts = Ok L ->
  format self dcts opts = Ok (out, (ids, cols)) ->
  o_list_columns opts = false ->
  out = map (line (o_wiki_table opts) (l_widths L) (l_signs L)) (l_table L).
Proof.
  intros HL H Hlist. destruct (format_inv _ _ _ _ H) as (L' & HL' & _ & Hout).
  rewrite HL in HL'. injection HL' as <-. cbn [fst] in Hout.
  now rewrite Hlist in Hout.
Qed.

Lemma line_joined (wiki_table : bool) (widths signs : list Z)
    (row : list tcell) :
  line wiki_table widths signs row
  = joined wiki_table
      (map (fun p : Z * (Z * tcell) =>
              Py.fmt_star_s (fst p * fst (snd p)) (str (snd (snd p))))
         (shown widths (combine widths (combine signs row)))).
Proof.
  unfold line, joined, shown.
  assert (E : forall (X : list (Z * tcell)),
            map snd (List.filter (fun p : Z * (Z * (Z * tcell)) => 0 <? fst p)
                       (combine widths (combine widths X)))
            = List.filter (fun p : Z * (Z * tcell) => 0 <? fst p)
                (combine widths X)).
  { induction widths as [|w ws IH]; intros [|x X]; try reflexivity.
    cbn [combine List.filter fst]. destruct (0 <? w); cbn [map snd];
      now rewrite IH. }
  rewrite E.
  assert (M : forall l : list (Z * (Z * tcell)),
            map (fun p => let '(w, (sign, s)) := p in
                          Py.fmt_star_s (w * sign) (str s)) l
            = map (fun p => Py.fmt_star_s (fst p * fst (snd p))
                              (str (snd (snd p)))) l).
  { intros l. apply map_ext. now intros [w [sign c]]. }
  rewrite M. now destruct wiki_table.
Qed.

Lemma shown_in (widths signs : list Z) (row : list tcell) w sign c :
  In (w, (sign, c)) (shown widths (combine widths (combine signs row))) ->
  0 < w
  /\ exists i, widths !! i = Some w /\ signs !! i = Some sign
               /\ row !! i = Some c.
Proof.
  unfold shown. revert signs row;
    induction widths as [|w0 ws IH]; intros [|s0 signs] [|c0 row] H;
    try (now destruct H).
  cbn [combine List.filter fst] in H.
  assert (Hrest : In (w, (sign, c))
                    (map snd (List.filter
                                (fun p : Z * (Z * (Z * tcell)) => 0 <? fst p)
                                (combine ws (combine ws (combine signs row))))) ->
                  0 < w /\ exists i, (w0 :: ws) !! i = Some w
                                     /\ (s0 :: signs) !! i = Some sign
                                     /\ (c0 :: row) !! i = Some c).
  { intros Hin. destruct (IH _ _ Hin) as (Hpos & i & H1 & H2 & H3).
    split; [exact Hpos|]. now exists (S i). }
  destruct (Z.ltb_spec 0 w0) as [Hpos|Hle]; [|exact (Hrest H)].
  cbn [map snd In] in H. destruct H as [E|H]; [|exact (Hrest H)].
  injection E as <- <- <-. split; [exact Hpos|]. now exists 0%nat.
Qed.

Lemma shown_cells (widths signs : list Z) (row : list tcell) :
  length signs = length widths -> length row = length widths ->
  map (fun p : Z * (Z * tcell) => snd (snd p))
    (shown widths (combine widths (combine signs row)))
  = shown widths row.
Proof.
  unfold shown. revert signs row;
    induction widths as [|w ws IH]; intros [|s0 signs] [|c0 row] Hs Hr;
    try discriminate; [reflexivity|].
  cbn [combine List.filter fst].
  specialize (IH signs row ltac:(simpl in Hs; lia) ltac:(simpl in Hr; lia)).
  destruct (0 <? w); cbn [map snd]; now rewrite IH.
Qed.

Lemma length_shown {A B : Type} (widths : list Z) (l : list A) (l' : list B) :
  length l = length l' -> length (shown widths l) = length (shown widths l').
Proof.
  unfold shown. rewrite !length_map. revert l l';
    induction widths as [|w ws IH]; intros [|x l] [|y l'] H;
    try discriminate; try reflexivity.
  cbn [combine List.filter fst].
  specialize (IH l l' ltac:(simpl in H; lia)).
  destruct (0 <? w); cbn [length]; now rewrite IH.
Qed.

Lemma fmt_star_s_padded (width : Z) (s : string) :
  padded s (Py.fmt_star_s width s).
Proof.
  unfold padded, Py.fmt_star_s. eexists.
  destruct (width <? 0); [right | left]; reflexivity.
Qed.

(** C4 (amended).  For every column of a table that [format] lays out, the
    final width is 0 exactly when every cell of the column in the data rows
    is the empty string (also when there are data rows), and otherwise it
    is the maximum of the longest cell and the length of the header label;
    the columns that [format] returns are those of positive width; and
    every line that [format] writes, the header line first, is made of one
    field per column of positive width, holding the cell of that column,
    and of no field for a column of width 0. *)
Theorem final_width_spec (self : Formatter) (dcts : list Row) (opts : Opts)
    (L : layout) :
  length (funcs self) = length (columns self) ->
  format_layout self dcts opts = Ok L ->
  (forall i col,
      header self opts !! i = Some col ->
      exists w,
        l_widths L !! i = Some w
        /\ (longest i (tail (l_table L)) = 0 <-> w = 0)
        /\ (longest i (tail (l_table L)) <> 0 ->
            w = Z.max (longest i (tail (l_table L))) (Py.len col)))
  /\ (forall out ids cols,
        format self dcts opts = Ok (out, (ids, cols)) ->
        cols = map snd (List.filter (fun p => 0 <? fst p)
                          (combine (l_widths L) (header self opts))))
  /\ (forall out ids cols,
        format self dcts opts = Ok (out, (ids, cols)) ->
        o_list_columns opts = false ->
        Forall2
          (fun printed row =>
             exists fields,
               printed = joined (o_wiki_table opts) fields
               /\ length fields = length cols
               /\ Forall2 (fun field c => padded (str c) field)
                    fields (shown (l_widths L) row))
          out (l_table L)).
Proof.
  intros Hinit HL.
  destruct (format_layout_spec _ _ _ _ Hinit HL)
    as (data & Htab & Hwl & Hsl & Hw & _).
  assert (Hcols : forall out ids cols,
            format self dcts opts = Ok (out, (ids, cols)) ->
            cols = shown (l_widths L) (header self opts)).
  { intros out ids cols Hfmt. unfold format in Hfmt. rewrite HL in Hfmt.
    cbn [bind] in Hfmt. rewrite Htab in Hfmt.
    cbn [get_item lookup list_lookup bind] in Hfmt.
    injection Hfmt as _ _ <-. unfold shown.
    generalize (l_widths L). generalize (header self opts). clear.
    intros hd; induction hd as [|c hd IH]; intros [|w ws]; simpl; auto.
    destruct (0 <? w); simpl; now rewrite IH. }
  split; [|split].
  - intros i col Hcol. rewrite Htab. cbn [tail].
    exists (final_width (longest i data) col). split; [now apply Hw|].
    pose proof (longest_nonneg i data). unfold final_width.
    destruct (Z.eqb_spec (longest i data) 0); split; try tauto; try lia.
  - exact Hcols.
  - intros out ids cols Hfmt Hlist.
    rewrite (format_out _ _ _ _ _ _ _ HL Hfmt Hlist).
    rewrite (Hcols _ _ _ Hfmt).
    apply Forall2_map_in. intros row Hrow.
    pose proof (layout_row_lengths _ _ _ _ Hinit HL row Hrow) as Hlen.
    eexists. split; [apply line_joined|].
    rewrite <- (shown_cells (l_widths L) (l_signs L) row) by lia.
    split.
    + rewrite !length_map. rewrite <- (length_map (fun p : Z * (Z * tcell) => snd (snd p))).
      rewrite shown_cells by lia. now apply length_shown.
    + apply Forall2_map_right, Forall2_map_in. intros p _.
      apply fmt_star_s_padded.
Qed.

(** [final_width_spec] at the column ["user"] of [demo_layout]. *)
Lemma final_width_spec_witness :
  exists w,
    l_widths demo_layout !! 1%nat = Some w
    /\ (longest 1 (tail (l_table demo_layout)) = 0 <-> w = 0)
    /\ (longest 1 (tail (l_table demo_layout)) <> 0 ->
        w = Z.max (longest 1 (tail (l_table demo_layout))) (Py.len "user")).
Proof.
  apply (proj1 (final_width_spec table_formatter [row0; row_free] opts0
                  demo_layout eq_refl eq_refl) 1%nat "user"%string).
  reflexivity.
Defined.

(** C4 as stated fails: with one data row whose [energy] is missing, the
    column ["energy"] has final width 0 (by [w and max(w, len(col))]), not
    the length 6 of its label, and is left out of the output. *)
Lemma final_width_counterexample :
  exists L,
    format_layout sparse_formatter [row_free] opts0 = Ok L
    /\ tail (l_table L) = [[TStr "2"; TStr ""]]
    /\ l_widths L = [2; 0]
    /\ Z.max (longest 1 (tail (l_table L))) (Py.len "energy") = 6
    /\ format sparse_formatter [row_free] opts0
       = Ok (["id"; " 2"]%string, ([2], ["id"%string])).
Proof. eexists. split; [reflexivity|]. repeat split. Qed.

Lemma contains_append (c : ascii) (s t : string) :
  contains c (s ++ t) = contains c s || contains c t.
Proof.
  induction s as [|a s IH]; [reflexivity|].
  rewrite append_cons. cbn [contains]. now rewrite IH, orb_assoc.
Qed.

Lemma three_decimals_point (s : string) :
  three_decimals s -> contains "." s = true.
Proof.
  intros (sign & ip & frac & -> & _).
  rewrite !contains_append. change (contains "." ".") with true.
  now rewrite !orb_true_r.
Qed.

(** C5 (amended).  In the cell loop, an accessor that raises
    [AttributeError] gives the empty cell, leaves widths and signs alone,
    and the loop goes on with the next accessor; an [int] is rendered by
    ['%d'] (no decimal point), a [float] by ['%.3f'] (three decimals when
    it is finite, and [nan], [inf] or [-inf] otherwise), both leaving the
    signs alone; a string is kept as it is and sets the sign of its column
    to [-1].  In the table laid out, the sign of a column is [-1] exactly
    when some row gave a string there, and every printed field of a column
    of positive width [w] is [w] bytes wide: right-justified under sign
    [1], left-justified under sign [-1].  Every line that [format] writes
    is made of exactly these fields, one per cell of a column of positive
    width, separated by ['|']. *)
Theorem render_and_justify (self : Formatter) (dcts : list Row) (opts : Opts)
    (L : layout) :
  length (funcs self) = length (columns self) ->
  format_layout self dcts opts = Ok L ->
  (forall dct i f row widths signs fs,
      f opts dct = Raise AttributeError ->
      cell_step opts dct i f (row, widths, signs)
      = Ok (row ++ [EmptyString], widths, signs)
      /\ cell_loop opts dct (f :: fs) i (row, widths, signs)
         = cell_loop opts dct fs (S i) (row ++ [EmptyString], widths, signs))
  /\ (forall dct i f row widths signs v,
        f opts dct = Ok v ->
        (i < length widths)%nat -> (i < length signs)%nat ->
        exists widths',
          match v with
          | VInt z =>
              cell_step opts dct i f (row, widths, signs)
              = Ok (row ++ [Py.fmt_d z], widths', signs)
              /\ no_decimals (Py.fmt_d z)
          | VFloat x =>
              cell_step opts dct i f (row, widths, signs)
              = Ok (row ++ [Fmt.f3 x], widths', signs)
              /\ (Fmt.finite x = true -> three_decimals (Fmt.f3 x))
              /\ (Fmt.finite x = false ->
                  In (Fmt.f3 x) ["nan"; "inf"; "-inf"]%string)
          | VStr s =>
              cell_step opts dct i f (row, widths, signs)
              = Ok (row ++ [s], widths', <[i := -1]> signs)
          end)
  /\ (forall i f,
        funcs self !! i = Some f ->
        l_signs L !! i
        = Some (if existsb (textual opts f) dcts then -1 else 1))
  /\ (forall row i c w sign,
        In row (l_table L) -> row !! i = Some c ->
        l_widths L !! i = Some w -> 0 < w -> l_signs L !! i = Some sign ->
        (sign = 1
         /\ right_justified w (str c) (Py.fmt_star_s (w * sign) (str c)))
        \/ (sign = -1
            /\ left_justified w (str c) (Py.fmt_star_s (w * sign) (str c))))
  /\ (forall out ids cols,
        format self dcts opts = Ok (out, (ids, cols)) ->
        o_list_columns opts = false ->
        Forall2
          (fun printed row =>
             exists fields,
               printed = joined (o_wiki_table opts) fields
               /\ Forall2 (fun field p => justified p field) fields
                    (printed_cells (l_widths L) (l_signs L) row))
          out (l_table L)).
Proof.
  intros Hinit HL.
  destruct (format_layout_spec _ _ _ _ Hinit HL)
    as (data & Htab & Hwl & Hsl & Hw & Hs & Hrep).
  assert (Hfield : forall row i c w sign,
            In row (l_table L) -> row !! i = Some c ->
            l_widths L !! i = Some w -> 0 < w -> l_signs L !! i = Some sign ->
            (sign = 1
             /\ right_justified w (str c) (Py.fmt_star_s (w * sign) (str c)))
            \/ (sign = -1
                /\ left_justified w (str c)
                     (Py.fmt_star_s (w * sign) (str c)))).
  { intros row i c w sign Hrow Hc Hwi Hpos Hsi.
    destruct (layout_cell_fits _ _ _ _ Hinit HL row i c w sign
                Hrow Hc Hwi Hpos Hsi) as [[-> | ->] Hlen];
      [left | right]; split; auto.
    - now apply fmt_star_s_right.
    - now apply fmt_star_s_left. }
  split; [|split; [|split; [|split]]].
  - intros dct i f row widths signs fs Hf.
    assert (Hstep : cell_step opts dct i f (row, widths, signs)
                    = Ok (row ++ [EmptyString], widths, signs)).
    { unfold cell_step. now rewrite Hf. }
    split; [exact Hstep|]. cbn [cell_loop]. now rewrite Hstep.
  - intros dct i f row widths signs v Hf Hiw His.
    destruct (lookup_lt_is_Some_2 widths i Hiw) as [w Hwi].
    destruct (lookup_lt_is_Some_2 signs i His) as [sg Hsi].
    assert (Hfatal : fatal opts dct f = None)
      by (unfold fatal; now rewrite Hf).
    pose proof (cell_step_spec opts dct i f row widths signs w sg
                  Hwi Hsi Hfatal) as Hstep.
    unfold cell_str, cell_sign, textual in Hstep. rewrite Hf in Hstep.
    exists (<[i := cell_width opts dct f w]> widths).
    destruct v as [z|x|s]; cbn [rendered] in Hstep.
    + rewrite (list_insert_id signs i sg Hsi) in Hstep.
      split; [exact Hstep | apply fmt_d_no_decimals].
    + rewrite (list_insert_id signs i sg Hsi) in Hstep.
      split; [exact Hstep|]. split; [apply f3_three_decimals|].
      destruct x as [q|q| |[]]; try discriminate; intros _; simpl; tauto.
    + exact Hstep.
  - exact Hs.
  - exact Hfield.
  - intros out ids cols Hfmt Hlist.
    rewrite (format_out _ _ _ _ _ _ _ HL Hfmt Hlist).
    apply Forall2_map_in. intros row Hrow.
    eexists. split; [apply line_joined|].
    fold (printed_cells (l_widths L) (l_signs L) row).
    apply Forall2_map_in. intros [w [sign c]] Hp.
    destruct (shown_in _ _ _ _ _ _ Hp) as (Hpos & i & Hwi & Hsi & Hc).
    cbn [justified fst snd].
    exact (Hfield row i c w sign Hrow Hc Hwi Hpos Hsi).
Qed.

(** [render_and_justify] at [demo_layout]: the column of ids is numeric,
    the column of users textual. *)
Lemma render_and_justify_witness :
  l_signs demo_layout !! 0%nat = Some 1
  /\ l_signs demo_layout !! 1%nat = Some (-1)
  /\ right_justified 2 "1" (Py.fmt_star_s (2 * 1) "1")
  /\ left_justified 5 "bob" (Py.fmt_star_s (5 * -1) "bob").
Proof.
  destruct (render_and_justify table_formatter [row0; row_free] opts0
              demo_layout eq_refl eq_refl) as (_ & _ & Hs & Hj & _).
  split; [exact (Hs 0%nat Formatter.id eq_refl)|].
  split; [exact (Hs 1%nat Formatter.user eq_refl)|].
  split.
  - destruct (Hj [TStr "1"; TStr "bob"; TStr "-1.250"; TStr "6.000"]
                0%nat (TStr "1") 2 1) as [[_ H]|[H _]];
      [simpl; tauto | reflexivity | reflexivity | lia | reflexivity
      | exact H | discriminate H].
  - destruct (Hj [TStr "1"; TStr "bob"; TStr "-1.250"; TStr "6.000"]
                1%nat (TStr "bob") 5 (-1)) as [[H _]|[_ H]];
      [simpl; tauto | reflexivity | reflexivity | lia | reflexivity
      | discriminate H | exact H].
Defined.

(** C5 as stated fails on a float that is not finite: ['%.3f'] prints
    [nan] for it (and [inf], [-inf]), with no decimal at all, and that is
    the cell of the table. *)
Lemma render_and_justify_counterexample :
  Formatter.energy opts0 row_nan = Ok (VFloat FNaN)
  /\ cell_step opts0 row_nan 0 Formatter.energy ([], [0], [1])
     = Ok (["nan"%string], [3], [1])
  /\ ~ three_decimals "nan"
  /\ format {| sort := None; columns := ["energy"]%string;
               funcs := [Formatter.energy] |} [row_nan] opts0
     = Ok (["energy"; "   nan"]%string, ([5], ["energy"%string])).
Proof.
  split; [reflexivity|]. split; [reflexivity|]. split; [|reflexivity].
  intros H. apply three_decimals_point in H. discriminate H.
Qed.

(** X15.  The table that [format] writes is rectangular: all its lines,
    the header line included, have the same length, under [--sort],
    [--uniq] and [--wiki-table] as well. *)
Theorem format_rectangular (self : Formatter) (dcts : list Row) (opts : Opts)
    out ids cols :
  length (funcs self) = length (columns self) ->
  format self dcts opts = Ok (out, (ids, cols)) ->
  forall l1 l2, In l1 out -> In l2 out -> Py.len l1 = Py.len l2.
Proof.
  intros Hinit H. destruct (format_inv _ _ _ _ H) as (L & HL & _ & Hout).
  cbn [fst] in Hout.
  destruct (format_layout_spec _ _ _ _ Hinit HL)
    as (data & _ & Hwl & Hsl & _).
  assert (Hline : forall row, In row (l_table L) ->
            map Py.len
              (map (fun p : Z * (Z * tcell) =>
                      let '(w, (sign, s)) := p in
                      Py.fmt_star_s (w * sign) (str s))
                 (List.filter (fun p => 0 <? fst p)
                    (combine (l_widths L) (combine (l_signs L) row))))
            = List.filter (fun w => 0 <? w) (l_widths L)).
  { intros row Hrow. apply line_fields_len.
    - lia.
    - rewrite (layout_row_lengths _ _ _ _ Hinit HL row Hrow). lia.
    - intros i w sign c Hw Hs Hc Hpos.
      exact (layout_cell_fits _ _ _ _ Hinit HL row i c w sign Hrow Hc Hw Hpos Hs). }
  assert (Hlen : forall row row', In row (l_table L) -> In row' (l_table L) ->
            Py.len (line (o_wiki_table opts) (l_widths L) (l_signs L) row)
            = Py.len (line (o_wiki_table opts) (l_widths L) (l_signs L) row')).
  { intros row row' Hrow Hrow'. unfold line.
    pose proof (len_join_ext "|" _ _
                  (eq_trans (Hline row Hrow) (eq_sym (Hline row' Hrow')))) as E.
    destruct (o_wiki_table opts); [|exact E].
    rewrite !len_append, E. reflexivity. }
  intros l1 l2 H1 H2. destruct (o_list_columns opts); subst out; [destruct H1|].
  apply in_map_iff in H1 as (row & <- & Hrow).
  apply in_map_iff in H2 as (row' & <- & Hrow').
  now apply Hlen.
Qed.

Lemma format_rectangular_witness :
  Py.len "id|user |energy|size " = Py.len " 2|alice|      |     ".
Proof.
  apply (format_rectangular table_formatter [row0; row_free] opts0
           _ _ _ eq_refl format_example); simpl; tauto.
Defined.

(** *** Sorting that cannot work *)

Lemma list_index_last (s : string) (l : list string) :
  ~ In s l -> Py.list_index s (l ++ [s]) = Ok (length l).
Proof.
  induction l as [|y l IH]; intros Hin; cbn [app Py.list_index length].
  - now rewrite String.eqb_refl.
  - destruct (String.eqb_spec y s) as [->|Hne]; [exfalso; apply Hin; now left|].
    rewrite IH; [reflexivity|]. intros H. apply Hin. now right.
Qed.

(** X16.  On rows that all render: a non-empty [--sort] column that is not
    among the formatter's columns ends [format] with [ValueError]; and with
    [--uniq], sorting by the column ["repeat"] that [--uniq] itself adds
    always ends with [IndexError], since the name is found in
    [self.columns] but no row has a cell there when the table is sorted. *)
Theorem format_sort_failures (self : Formatter) (dcts : list Row) (opts : Opts) :
  length (funcs self) = length (columns self) ->
  (forall dct, In dct dcts -> renders opts (funcs self) dct) ->
  (forall s, sort self = Some s -> s <> EmptyString ->
     ~ In s (self_columns self opts) ->
     format self dcts opts = Raise ValueError)
  /\ (o_uniq opts = true -> sort self = Some "repeat"%string ->
      ~ In "repeat"%string (columns self) ->
      format self dcts opts = Raise IndexError).
Proof.
  intros Hinit Hrend.
  pose proof (header_length self opts) as Hn. rewrite <- Hinit in Hn.
  assert (Hle : (length (funcs self) <= length (header self opts))%nat)
    by (destruct (o_uniq opts); lia).
  destruct (row_loop_ok opts (funcs self) dcts [header self opts]
              (map (fun _ => 0) (header self opts))
              (map (fun _ => 1) (header self opts)) [])
    as (ids' & Hloop & Hids); [rewrite length_map; exact Hle .. | exact Hrend |].
  split.
  - intros s Hs Hne Hnot. unfold format, format_layout.
    rewrite Hloop. cbn [bind app]. rewrite Hs. unfold sort_stage.
    destruct s as [|c s]; [congruence|].
    rewrite (list_index_absent _ _ Hnot). reflexivity.
  - intros Hu Hs Hnot. unfold format, format_layout.
    rewrite Hloop. cbn [bind app]. rewrite Hs, Hu. unfold self_columns.
    rewrite Hu. unfold sort_stage. rewrite (list_index_last _ _ Hnot).
    cbn [bind]. destruct dcts as [|d dcts].
    + reflexivity.
    + cbn [cells map sort_keys]. unfold get_item at 1.
      rewrite (proj2 (lookup_ge_None _ _));
        [reflexivity | rewrite length_map; lia].
Qed.

Lemma format_sort_failures_witness :
  format {| sort := Some "repeat"%string; columns := ["user"]%string;
            funcs := [Formatter.user] |}
    [row0; row_free]
    {| o_count := false; o_list_columns := false; o_columns := None;
       o_include_all := false; o_sort := Some "repeat"%string; o_uniq := true;
       o_extract := None; o_limit := 0; o_wiki_table := false;
       o_cut := Some 30 |}
  = Raise IndexError.
Proof.
  apply (proj2 (format_sort_failures
                  {| sort := Some "repeat"%string; columns := ["user"]%string;
                     funcs := [Formatter.user] |}
                  [row0; row_free] _ eq_refl
                  ltac:(intros dct [<-|[<-|[]]]; (split; [|discriminate]);
                        intros f [<-|[]]; reflexivity))).
  - reflexivity.
  - reflexivity.
  - intros [H|[]]. discriminate H.
Defined.

(** ** The driver, further *)

(** *** The keys of the selection *)

Lemma add_key_in (keys : list string) (key k : string) :
  In k (add_key keys key) <-> In k keys \/ k = key.
Proof.
  unfold add_key. destruct (existsb (String.eqb key) keys) eqn:E.
  - split; [tauto|]. intros [H| ->]; [exact H|].
    apply existsb_exists in E as (x & Hx & Hq).
    apply String.eqb_eq in Hq. now subst.
  - rewrite in_app_iff. simpl. intuition congruence.
Qed.

Lemma add_key_nodup (keys : list string) (key : string) :
  List.NoDup keys -> List.NoDup (add_key keys key).
Proof.
  intros H. unfold add_key. destruct (existsb (String.eqb key) keys) eqn:E;
    [exact H|].
  apply List.NoDup_app; [exact H | repeat constructor; intros [] |].
  intros x Hx [Hq|[]]. subst x.
  assert (existsb (String.eqb key) keys = true); [|congruence].
  apply existsb_exists. exists key. split; [exact Hx | apply String.eqb_refl].
Qed.

Lemma add_key_prefix (keys : list string) (key : string) :
  exists more, add_key keys key = keys ++ more.
Proof.
  unfold add_key. destruct (existsb _ _).
  - exists []. now rewrite app_nil_r.
  - now exists [key].
Qed.

Lemma fold_add_key (ks keys : list string) :
  List.NoDup keys ->
  List.NoDup (fold_left add_key ks keys)
  /\ (forall k, In k (fold_left add_key ks keys) <-> In k keys \/ In k ks)
  /\ exists more, fold_left add_key ks keys = keys ++ more.
Proof.
  revert keys; induction ks as [|key ks IH]; intros keys Hnd; cbn [fold_left].
  - split; [exact Hnd|]. split; [simpl; tauto|].
    exists []. now rewrite app_nil_r.
  - destruct (IH _ (add_key_nodup keys key Hnd)) as (H1 & H2 & more & H3).
    split; [exact H1|]. split.
    + intros k. rewrite H2, add_key_in. simpl. intuition congruence.
    + destruct (add_key_prefix keys key) as (m0 & E0).
      exists (m0 ++ more). now rewrite H3, E0, app_assoc.
Qed.

Lemma collect_from (dcts : list Row) (keys : list string) :
  List.NoDup keys ->
  let r := fold_left
             (fun keys dct =>
                match d_key_value_pairs dct with
                | Some kv => fold_left add_key (map fst kv) keys
                | None => keys
                end) dcts keys in
  List.NoDup r
  /\ (forall k, In k r <-> In k keys \/ exists dct, In dct dcts /\ In k (keys_of dct))
  /\ exists more, r = keys ++ more.
Proof.
  revert keys; induction dcts as [|d dcts IH]; intros keys Hnd; cbn [fold_left].
  - split; [exact Hnd|]. split.
    + intros k. split; [tauto|]. intros [H|(d & [] & _)]. exact H.
    + exists []. now rewrite app_nil_r.
  - assert (Hstep : exists keys',
              match d_key_value_pairs d with
              | Some kv => fold_left add_key (map fst kv) keys
              | None => keys
              end = keys'
              /\ List.NoDup keys'
              /\ (forall k, In k keys' <-> In k keys \/ In k (keys_of d))
              /\ exists more, keys' = keys ++ more).
    { unfold keys_of. destruct (d_key_value_pairs d) as [kv|].
      - destruct (fold_add_key (map fst kv) keys Hnd) as (H1 & H2 & H3).
        eexists. repeat split; try eassumption; apply H2.
      - exists keys. repeat split; try tauto.
        + intros [H|[]]. exact H.
        + exists []. now rewrite app_nil_r. }
    destruct Hstep as (keys' & -> & Hnd' & Hin' & m0 & E0).
    destruct (IH keys' Hnd') as (H1 & H2 & more & H3).
    split; [exact H1|]. split.
    + intros k. rewrite H2, Hin'. split.
      * intros [[H|H]|(dct & Hd & Hk)]; [now left | right; exists d | right; exists dct];
          simpl; auto.
      * intros [H|(dct & [<-|Hd] & Hk)]; [tauto | tauto |].
        right. now exists dct.
    + exists (m0 ++ more). rewrite H3, E0, app_assoc. reflexivity.
Qed.

(** X17.  The keys that [run] collects for [--include-all] and
    [--list-columns] are exactly the keys of the rows that have key/value
    pairs, each of them once; and the keys of earlier rows come first:
    more rows only append keys. *)
Theorem collect_keys_spec (dcts : list Row) :
  List.NoDup (collect_keys dcts)
  /\ (forall k, In k (collect_keys dcts)
        <-> exists dct kv, In dct dcts /\ d_key_value_pairs dct = Some kv
                           /\ In k (map fst kv))
  /\ (forall dcts', exists more,
        collect_keys (dcts ++ dcts') = collect_keys dcts ++ more).
Proof.
  destruct (collect_from dcts [] (List.NoDup_nil string)) as (H1 & H2 & _).
  split; [exact H1|]. split.
  - intros k. unfold collect_keys. rewrite H2. unfold keys_of. split.
    + intros [[]|(dct & Hd & Hk)].
      destruct (d_key_value_pairs dct) as [kv|] eqn:E; [|destruct Hk].
      now exists dct, kv.
    + intros (dct & kv & Hd & E & Hk). right. exists dct. now rewrite E.
  - intros dcts'. unfold collect_keys. rewrite fold_left_app.
    destruct (collect_from dcts' _ H1) as (_ & _ & more & E).
    exists more. exact E.
Qed.

(** *** All columns *)

Lemma lstrip_plain (key : string) :
  plain_key key = true -> Py.lstrip "+" key = key.
Proof.
  unfold plain_key. intros H. apply andb_prop in H as [_ H].
  destruct key as [|c key]; [reflexivity|]. cbn [Py.lstrip].
  apply negb_true_iff in H. now rewrite H.
Qed.

Lemma plus_tokens (keys : list string) :
  forallb plain_key keys = true ->
  forallb (fun t => negb (contains "," t))
    (map (fun key => ("+" ++ key)%string) keys) = true
  /\ forallb plain_token (map (fun key => ("+" ++ key)%string) keys) = true
  /\ map (Py.lstrip "+") (map (fun key => ("+" ++ key)%string) keys) = keys.
Proof.
  induction keys as [|k l IH]; [now repeat split|]. cbn [forallb map].
  intros Hl. apply andb_prop in Hl as [Hp Hl].
  destruct (IH Hl) as (-> & -> & ->).
  pose proof (lstrip_plain k Hp) as Hstrip.
  unfold plain_key, valid_key in Hp.
  apply andb_prop in Hp as [Hv _]. apply andb_prop in Hv as [_ Hv].
  change ("+" ++ k)%string with (String "+" k).
  cbn [contains plain_token Py.lstrip]. change (Ascii.eqb "+" ",") with false.
  change (Ascii.eqb "+" "-") with false. change (Ascii.eqb "+" "+") with true.
  cbn [orb negb andb]. rewrite Hv, Hstrip. now repeat split.
Qed.

(** X18.  Under [--include-all] or [--list-columns] the value of [-c] is
    discarded; and when no key starts with a sign or holds a comma, the
    columns that [Formatter.__init__] then resolves are the sixteen default
    columns followed by the collected keys, in order. *)
Theorem run_all_columns (methods : string -> option accessor)
    (percent : string -> Z -> result string) (opts : Opts) (verbosity : Z)
    (dcts : list Row) (c : option string) :
  o_include_all opts || o_list_columns opts = true ->
  run_table methods percent (set_columns opts c) verbosity dcts
  = run_table methods percent opts verbosity dcts
  /\ (forallb plain_key (collect_keys dcts) = true ->
      init_columns (Some (all_columns dcts))
      = Ok (default_columns ++ collect_keys dcts)).
Proof.
  intros Hall. split.
  - unfold run_table. cbn [set_columns o_include_all o_list_columns].
    rewrite Hall. reflexivity.
  - intros Hkeys. unfold all_columns.
    destruct (collect_keys dcts) as [|key keys].
    + now rewrite app_nil_r.
    + rewrite join_plus. cbn [init_columns].
      change (Ascii.eqb "+" "+") with true. cbn iota.
      cbn [forallb] in Hkeys. apply andb_prop in Hkeys as [Hk Hks].
      destruct (plus_tokens keys Hks) as (Hc & Hp & Hstrip).
      pose proof (lstrip_plain key Hk) as Hstrip0.
      unfold plain_key, valid_key in Hk.
      apply andb_prop in Hk as [Hv _]. apply andb_prop in Hv as [Hk1 Hk2].
      rewrite split_join; [| discriminate | cbn [forallb]; now rewrite Hk2, Hc].
      rewrite column_tokens_plain by (cbn [forallb]; now rewrite Hk1, Hp).
      cbn [map]. now rewrite Hstrip0, Hstrip.
Qed.

Lemma run_all_columns_witness :
  init_columns (Some (all_columns [row0; row_kv]))
  = Ok (default_columns ++ ["k"; "config_type"]%string).
Proof.
  apply (proj2 (run_all_columns builtin_methods percent_demo opts_quiet_list 1
                  [row0; row_kv] None eq_refl)).
  reflexivity.
Defined.

(** *** Listing the columns *)

(** X19.  [--list-columns] at verbosity 1 or more, on a non-empty
    selection: when the formatter is built and [format] returns, [run]
    prints the returned column names, one per line and without the
    ["COLUMN"] label, and nothing else: no line of the table is written
    and nothing is extracted, whatever [--extract] says. *)
Theorem run_list_columns (methods : string -> option accessor)
    (plural : Z -> string -> string) (select : Z -> Z -> list Row)
    (percent : string -> Z -> result string) (opts : Opts) (verbosity : Z)
    (f : Formatter) out ids cols :
  o_count opts = false ->
  o_list_columns opts = true ->
  1 <= verbosity ->
  select verbosity (effective_limit opts) <> [] ->
  Formatter_init methods
    (Some (all_columns (select verbosity (effective_limit opts))))
    (o_sort opts) = Ok f ->
  format f (select verbosity (effective_limit opts))
    (set_columns opts
       (Some (all_columns (select verbosity (effective_limit opts)))))
  = Ok (out, (ids, cols)) ->
  run methods plural select percent opts verbosity
  = (map (PrintColumn false) cols, None).
Proof.
  intros Hcount Hlist Hv Hrows Hinit Hfmt. unfold effective_limit in *.
  unfold run. rewrite Hcount in *. cbn [orb] in *.
  set (dcts := select verbosity (if o_uniq opts then 0 else o_limit opts)) in *.
  replace (0 <? Z.of_nat (length dcts)) with true
    by (destruct dcts; [congruence | symmetry; apply Z.ltb_lt; cbn [length]; lia]).
  unfold run_table. rewrite Hlist, orb_true_r.
  cbn [set_columns o_columns o_sort o_list_columns]. rewrite Hinit.
  replace (1 <=? verbosity) with true by (symmetry; apply Z.leb_le; lia).
  fold (set_columns opts (Some (all_columns dcts))). rewrite Hfmt.
  cbn [bind]. rewrite Hlist, orb_true_r.
  destruct (format_inv _ _ _ _ Hfmt) as (L & _ & _ & Hout).
  cbn [fst set_columns o_list_columns] in Hout. rewrite Hlist in Hout.
  subst out. reflexivity.
Qed.

(** *** Extraction *)

Lemma extract_loop_single (percent : string -> Z -> result string)
    (extract : string) (verbosity i : Z) (dcts : list Row) :
  snd (extract_loop percent extract true verbosity i dcts) = None
  /\ List.filter (fun e => negb (is_print e))
       (fst (extract_loop percent extract true verbosity i dcts))
     = map (WriteConfig extract) dcts
  /\ (verbosity <= 1 ->
      fst (extract_loop percent extract true verbosity i dcts)
      = map (WriteConfig extract) dcts).
Proof.
  revert i; induction dcts as [|d dcts IH]; intros i; cbn [extract_loop].
  - repeat split.
  - destruct (IH (i + 1)) as (H1 & H2 & H3).
    destruct (extract_loop percent extract true verbosity (i + 1) dcts)
      as [tr r] eqn:E.
    cbn [fst snd] in *. subst r. split; [reflexivity|]. split.
    + cbn [app]. destruct (1 <? verbosity); cbn [app List.filter is_print negb map];
        now rewrite H2.
    + intros Hv. rewrite (H3 Hv).
      destruct (Z.ltb_spec 1 verbosity); [lia|]. reflexivity.
Qed.

(** X20.  [--extract] with a file name without ['%']: one writer is opened,
    before the first row, and every selected row is written to it once, in
    the order of the selection, whatever the verbosity; up to verbosity 1
    nothing else happens. *)
Theorem extract_single_file (percent : string -> Z -> result string)
    (opts : Opts) (verbosity : Z) (dcts : list Row) (extract : string) :
  o_extract opts = Some extract ->
  contains "%" extract = false ->
  snd (extract_path percent opts verbosity dcts) = None
  /\ List.filter (fun e => negb (is_print e))
       (fst (extract_path percent opts verbosity dcts))
     = OpenWriter extract :: map (WriteConfig extract) dcts
  /\ (verbosity <= 1 ->
      extract_path percent opts verbosity dcts
      = (OpenWriter extract :: map (WriteConfig extract) dcts, None)).
Proof.
  intros He Hc. unfold extract_path. rewrite He, Hc. cbn [negb].
  destruct (extract_loop_single percent extract verbosity 0 dcts)
    as (H1 & H2 & H3).
  destruct (extract_loop percent extract true verbosity 0 dcts) as [tr r].
  cbn [fst snd app] in *. subst r. split; [reflexivity|]. split.
  - cbn [List.filter is_print negb]. now rewrite H2.
  - intros Hv. now rewrite (H3 Hv).
Qed.

Lemma extract_single_file_witness :
  extract_path percent_demo opts_quiet_list 1 [row0; row_free]
  = ([OpenWriter "out.xyz"; WriteConfig "out.xyz" row0;
      WriteConfig "out.xyz" row_free], None).
Proof.
  apply (proj2 (proj2 (extract_single_file percent_demo opts_quiet_list 1
                         [row0; row_free] "out.xyz" eq_refl eq_refl))).
  lia.
Defined.

Lemma extract_loop_each (percent : string -> Z -> result string)
    (template : string) (verbosity i : Z) (dcts : list Row) :
  match file_names percent template i (length dcts) with
  | Ok names =>
      length names = length dcts
      /\ snd (extract_loop percent template false verbosity i dcts) = None
      /\ List.filter (fun e => negb (is_print e))
           (fst (extract_loop percent template false verbosity i dcts))
         = write_each names dcts
  | Raise e =>
      snd (extract_loop percent template false verbosity i dcts) = Some e
      /\ exists names,
           (length names < length dcts)%nat
           /\ file_names percent template i (length names) = Ok names
           /\ percent template (i + Z.of_nat (length names)) = Raise e
           /\ List.filter (fun e => negb (is_print e))
                (fst (extract_loop percent template false verbosity i dcts))
              = write_each names dcts
  end.
Proof.
  revert i; induction dcts as [|d dcts IH]; intros i;
    cbn [extract_loop file_names length].
  - repeat split.
  - destruct (percent template i) as [name|e] eqn:Ep; cbn [bind].
    + specialize (IH (i + 1)).
      destruct (extract_loop percent template false verbosity (i + 1) dcts)
        as [tr r] eqn:E.
      destruct (file_names percent template (i + 1) (length dcts))
        as [names|e] eqn:En; cbn [bind fst snd] in *.
      * destruct IH as (Hl & -> & Hf). split; [cbn [length]; lia|].
        split; [reflexivity|].
        unfold write_each in *. cbn [combine map concat fst snd app].
        rewrite <- Hf.
        destruct (1 <? verbosity); cbn [app List.filter is_print negb];
          reflexivity.
      * destruct IH as (-> & names & Hl & Hn & Hp & Hf). split; [reflexivity|].
        exists (name :: names). split; [cbn [length]; lia|].
        split; [cbn [length file_names]; rewrite Ep; cbn [bind]; now rewrite Hn|].
        split; [rewrite <- Hp; f_equal; cbn [length]; lia|].
        unfold write_each in *. cbn [combine map concat fst snd app].
        rewrite <- Hf.
        destruct (1 <? verbosity); cbn [app List.filter is_print negb];
          reflexivity.
    + split; [reflexivity|]. exists []. cbn [length]. split; [lia|].
      split; [reflexivity|]. split; [|reflexivity].
      now rewrite Z.add_0_r.
Qed.

(** X21.  [--extract] with a template holding ['%']: the rows are written
    one per file, row [i] of the selection (counted from 0) to the file
    named [template % i], each through a writer opened just before.  If
    some [template % i] raises, [run] ends with the error of the first such
    [i], the rows before [i] having been written, each to its file. *)
Theorem extract_file_per_row (percent : string -> Z -> result string)
    (opts : Opts) (verbosity : Z) (dcts : list Row) (template : string) :
  o_extract opts = Some template ->
  contains "%" template = true ->
  match file_names percent template 0 (length dcts) with
  | Ok names =>
      length names = length dcts
      /\ snd (extract_path percent opts verbosity dcts) = None
      /\ List.filter (fun e => negb (is_print e))
           (fst (extract_path percent opts verbosity dcts))
         = write_each names dcts
  | Raise e =>
      snd (extract_path percent opts verbosity dcts) = Some e
      /\ exists names,
           (length names < length dcts)%nat
           /\ file_names percent template 0 (length names) = Ok names
           /\ percent template (Z.of_nat (length names)) = Raise e
           /\ List.filter (fun e => negb (is_print e))
                (fst (extract_path percent opts verbosity dcts))
              = write_each names dcts
  end.
Proof.
  intros He Hc. unfold extract_path. rewrite He, Hc. cbn [negb].
  pose proof (extract_loop_each percent template verbosity 0 dcts) as H.
  destruct (extract_loop percent template false verbosity 0 dcts) as [tr r].
  cbn [app fst snd] in *. exact H.
Qed.

Lemma extract_file_per_row_witness :
  List.filter (fun e => negb (is_print e))
    (fst (extract_path percent_demo
            (opts_extract "c%")
            2 [row0; row_free]))
  = write_each ["c%0"; "c%1"]%string [row0; row_free].
Proof.
  apply (extract_file_per_row percent_demo
           (opts_extract "c%")
           2 [row0; row_free] "c%" eq_refl eq_refl).
Defined.

(** *** Quiet runs *)

(** X22.  At verbosity 0 or less, without [--count] and [--list-columns],
    on a non-empty selection for which the formatter can be built: [run]
    does not call [format], so no accessor is called and none can fail; it
    does exactly what the extraction does, and prints nothing. *)
Theorem run_quiet (methods : string -> option accessor)
    (plural : Z -> string -> string) (select : Z -> Z -> list Row)
    (percent : string -> Z -> result string) (opts : Opts) (verbosity : Z)
    (f : Formatter) :
  verbosity <= 0 ->
  o_count opts = false ->
  o_list_columns opts = false ->
  select verbosity (effective_limit opts) <> [] ->
  Formatter_init methods
    (if o_include_all opts
     then Some (all_columns (select verbosity (effective_limit opts)))
     else o_columns opts)
    (o_sort opts) = Ok f ->
  run methods plural select percent opts verbosity
  = extract_path percent opts verbosity
      (select verbosity (effective_limit opts))
  /\ forallb (fun e => negb (is_print e))
       (fst (run methods plural select percent opts verbosity)) = true.
Proof.
  intros Hv Hcount Hlist Hrows Hinit. unfold effective_limit in *.
  set (dcts := select verbosity (if o_count opts || o_uniq opts then 0
                                 else o_limit opts)) in *.
  assert (Hrun : run methods plural select percent opts verbosity
                 = extract_path percent opts verbosity dcts).
  { unfold run. fold dcts. rewrite Hcount.
    replace (0 <? Z.of_nat (length dcts)) with true
      by (destruct dcts; [congruence
                         | symmetry; apply Z.ltb_lt; cbn [length]; lia]).
    unfold run_table. rewrite Hlist, orb_false_r.
    assert (Hf : Formatter_init methods
                   (o_columns (if o_include_all opts
                               then set_columns opts (Some (all_columns dcts))
                               else opts))
                   (o_sort (if o_include_all opts
                            then set_columns opts (Some (all_columns dcts))
                            else opts)) = Ok f).
    { destruct (o_include_all opts); exact Hinit. }
    rewrite Hf.
    replace (1 <=? verbosity) with false by (symmetry; apply Z.leb_gt; lia).
    replace (1 <? verbosity) with false by (symmetry; apply Z.ltb_ge; lia).
    assert (Hsame : forall o c, extract_path percent (set_columns o c) verbosity dcts
                                = extract_path percent o verbosity dcts)
      by reflexivity.
    assert (Hl : o_list_columns (if o_include_all opts
                                 then set_columns opts (Some (all_columns dcts))
                                 else opts) = false)
      by (destruct (o_include_all opts); exact Hlist).
    rewrite Hl. cbn [orb].
    replace (extract_path percent
               (if o_include_all opts
                then set_columns opts (Some (all_columns dcts)) else opts)
               verbosity dcts)
      with (extract_path percent opts verbosity dcts)
      by (destruct (o_include_all opts); [symmetry; apply Hsame | reflexivity]).
    destruct (extract_path percent opts verbosity dcts). reflexivity. }
  split; [exact Hrun|]. rewrite Hrun. unfold extract_path.
  destruct (o_extract opts) as [extract|]; [|reflexivity].
  assert (Hloop : forall single i l,
            forallb (fun e => negb (is_print e))
              (fst (extract_loop percent extract single verbosity i l)) = true).
  { intros single i l; revert i; induction l as [|d l IH]; intros i;
      cbn [extract_loop]; [reflexivity|].
    replace (1 <? verbosity) with false by (symmetry; apply Z.ltb_ge; lia).
    specialize (IH (i + 1)).
    destruct single; cbn [bind].
    - destruct (extract_loop percent extract true verbosity (i + 1) l).
      cbn [fst app forallb is_print negb andb] in *. exact IH.
    - destruct (percent extract i); cbn [bind]; [|reflexivity].
      destruct (extract_loop percent extract false verbosity (i + 1) l).
      cbn [fst app forallb is_print negb andb] in *. exact IH. }
  specialize (Hloop (negb (contains "%" extract)) 0 dcts).
  destruct (extract_loop percent extract (negb (contains "%" extract))
              verbosity 0 dcts) as [tr r].
  cbn [fst] in *. destruct (negb (contains "%" extract)); cbn [app forallb];
    exact Hloop.
Qed.
Lemma run_list_columns_witness :
  run builtin_methods plural_demo (fun _ _ => [row0; row_kv]) percent_demo
    opts_quiet_list 1
  = (map (PrintColumn false)
       (default_columns ++ ["k"; "config_type"]%string), None).
Proof.
  eapply (run_list_columns builtin_methods plural_demo
            (fun _ _ => [row0; row_kv]) percent_demo opts_quiet_list 1);
    [reflexivity | reflexivity | lia | discriminate | reflexivity
    | reflexivity].
Defined.

Lemma run_quiet_witness :
  run builtin_methods plural_demo (fun _ _ => [row0; row_free]) percent_demo
    (opts_extract "out.xyz") 0
  = extract_path percent_demo (opts_extract "out.xyz") 0 [row0; row_free]
  /\ forallb (fun e => negb (is_print e))
       (fst (run builtin_methods plural_demo (fun _ _ => [row0; row_free])
               percent_demo (opts_extract "out.xyz") 0)) = true.
Proof.
  eapply (run_quiet builtin_methods plural_demo (fun _ _ => [row0; row_free])
            percent_demo (opts_extract "out.xyz") 0);
    [lia | reflexivity | reflexivity | discriminate | reflexivity].
Defined.
